(** * web: the route table and the reflective dispatcher of server.go

    A shallow embedding of [addRoute], [safelyCall], [requiresContext],
    [tryServingFile] and [routeHandler] of package web, with the parts of
    Go's standard library they call (regexp, reflect, net/http, os, path,
    time, runtime) modelled just far enough to run them. *)

From Stdlib Require Import String Ascii DecimalString.
From stdpp Require Import base tactics option list strings gmap.

Set Default Proof Using "Type".
Local Open Scope string_scope.
Local Open Scope list_scope.

(** ** Go strings and byte slices

    A Go [string] and a [[]byte] are both sequences of 8-bit bytes.  Both
    are modelled by Rocq's [string], whose characters are bytes, so that
    [len] is [String.length] (a count of bytes, not of runes) and the
    conversion [[]byte(s)] keeps every byte. *)

Definition bytes := string.

Definition bytes_of_string (s : string) : bytes := s.

(** [strconv.Itoa] on a non-negative [int]: its decimal digits. *)
Definition Itoa (n : nat) : string := NilEmpty.string_of_uint (Nat.to_uint n).

(** The slice expression [s[lo:hi]]. *)
Definition slice (s : string) (lo hi : nat) : string := substring lo (hi - lo) s.

(** [strings.HasSuffix]. *)
Definition HasSuffix (s suffix : string) : bool :=
  bool_decide (slice s (String.length s - String.length suffix) (String.length s) = suffix).

(** [webTime], applied to the text that [t.Format(time.RFC1123)] gives. *)
Definition webTime (ftime : string) : string :=
  if HasSuffix ftime "UTC"
  then slice ftime 0 (String.length ftime - 3) +:+ "GMT"
  else ftime.

(** ** package regexp

    The library is taken as an interface.  [Compile] gives [None] where Go
    returns a non-nil error.  [doExecute] is the matcher behind both
    [MatchString] and [FindStringSubmatch]: on a match it gives the bounds
    of the leftmost match of the whole expression and, for each capture
    group, its bounds or [None] when the group took no part. *)

Class RegexpLib := {
  Regexp : Type;
  Compile : string → option Regexp;
  doExecute : Regexp → string → option ((nat * nat) * list (option (nat * nat)))
}.

Section regexp.
Context `{RegexpLib}.

Definition MatchString (re : Regexp) (s : string) : bool :=
  match doExecute re s with Some _ => true | None => false end.

(** The result is [[]] for Go's nil; otherwise element 0 is the text of
    the whole match and the others are the texts of the groups, the empty
    string for a group that took no part. *)
Definition FindStringSubmatch (re : Regexp) (s : string) : list string :=
  match doExecute re s with
  | None => []
  | Some ((lo, hi), groups) =>
      slice s lo hi ::
      map (λ g, match g with Some (a, b) => slice s a b | None => "" end) groups
  end.
End regexp.

(** ** package reflect *)

Inductive Kind :=
  | Bool | Int | Uint8 | String_ | Struct | Ptr | Slice | Interface | Func.

(** Types other than function types.  [TDefined name u] is the type
    declared by [type name u]. *)
Inductive rtype :=
  | TBool | TInt | TUint8 | TString
  | TStruct
  | TPtr (elem : rtype)
  | TSlice (elem : rtype)
  | TInterface
  | TDefined (name : string) (under : rtype).

Global Instance Kind_eq_dec : EqDecision Kind.
Proof. solve_decision. Defined.

Global Instance rtype_eq_dec : EqDecision rtype.
Proof. solve_decision. Defined.

Fixpoint underlying (t : rtype) : rtype :=
  match t with
  | TDefined _ u => underlying u
  | _ => t
  end.

Definition kindOf (t : rtype) : Kind :=
  match underlying t with
  | TBool => Bool
  | TInt => Int
  | TUint8 => Uint8
  | TString => String_
  | TStruct => Struct
  | TPtr _ => Ptr
  | TSlice _ => Slice
  | TInterface => Interface
  | TDefined _ _ => Struct
  end.

(** [Type.Elem] of a pointer or slice type; for the other kinds, where Go
    panics, the type itself. *)
Definition Elem (t : rtype) : rtype :=
  match underlying t with
  | TPtr e => e
  | TSlice e => e
  | _ => t
  end.

(** [Type.Name]: empty for a type literal. *)
Definition Name (t : rtype) : string :=
  match t with
  | TBool => "bool"
  | TInt => "int"
  | TUint8 => "uint8"
  | TString => "string"
  | TDefined n _ => n
  | _ => ""
  end.

(** [Type.String]. *)
Fixpoint rtype_String (t : rtype) : string :=
  match t with
  | TBool => "bool"
  | TInt => "int"
  | TUint8 => "uint8"
  | TString => "string"
  | TStruct => "struct {}"
  | TPtr e => "*" +:+ rtype_String e
  | TSlice e => "[]" +:+ rtype_String e
  | TInterface => "interface {}"
  | TDefined n _ => n
  end.

(** [contextType = reflect.TypeOf(Context{})]. *)
Definition contextType : rtype := TDefined "web.Context" TStruct.

(** [Type.AssignableTo], as far as the values of the dispatcher need it,
    which are of type [string] and [*Context]: identical types, or the
    target is [interface{}], or one of the two is a type literal and the
    underlying types are identical. *)
Definition AssignableTo (v t : rtype) : bool :=
  bool_decide (v = t)
  || bool_decide (t = TInterface)
  || (bool_decide (Name v = "" ∨ Name t = "") && bool_decide (underlying v = underlying t)).

(** The type of a function: [In(i)] is the i-th element of [In],
    [NumIn] its length. *)
Record FuncType := { In : list rtype; IsVariadic : bool }.

Inductive reflectType :=
  | FuncOf (ft : FuncType)
  | TypeOf (t : rtype).

(** ** The response writer, the logger and the effects of a request

    [http.ResponseWriter] is an interface of the transport: the model keeps
    its header map and the calls made on it, in order.  [ServeFile name]
    stands for [http.ServeFile(w, req, name)]. *)

Inductive WCall :=
  | WriteHeader (status : nat)
  | Write (data : bytes)
  | ServeFile (name : string).

Record ResponseWriter := {
  Header : gmap string (list string);
  calls : list WCall
}.

(** What the logger was asked to print, one entry per call. *)
Inductive LogLine :=
  | LogRouteRegex (r : string)
  | LogRequest (method path : string) (params : option (gmap string string))
  | LogHandlerCrashed (err : string)
  | LogFrame (file : string) (line : nat)
  | LogWriteError (err : string).

Record State := { w : ResponseWriter; logged : list LogLine }.

(** A computation either returns or panics; the effects made before a
    panic stay.  The value of a panic is kept as its message. *)
Inductive Result (A : Type) :=
  | Done (a : A) (σ : State)
  | Panicked (err : string) (σ : State).
Arguments Done {A} a σ.
Arguments Panicked {A} err σ.

Definition M (A : Type) : Type := State → Result A.

Definition ret {A} (a : A) : M A := λ σ, Done a σ.

Definition bind {A B} (m : M A) (k : A → M B) : M B :=
  λ σ, match m σ with
       | Done a σ' => k a σ'
       | Panicked err σ' => Panicked err σ'
       end.

Definition panic {A} (err : string) : M A := λ σ, Panicked err σ.

Notation "x <- m ;; k" := (bind m (λ x, k))
  (at level 100, m at next level, right associativity).
Notation "m ;; k" := (bind m (λ _, k))
  (at level 100, right associativity).

(** The state after further calls on the writer, after further lines of
    log, and after [Header().Set(hdr, val)]. *)
Definition wrote (cs : list WCall) (σ : State) : State :=
  {| w := {| Header := Header (w σ); calls := calls (w σ) ++ cs |};
     logged := logged σ |}.

Definition printed (ls : list LogLine) (σ : State) : State :=
  {| w := w σ; logged := logged σ ++ ls |}.

Definition header_set (hdr val : string) (σ : State) : State :=
  {| w := {| Header := <[hdr := [val]]> (Header (w σ)); calls := calls (w σ) |};
     logged := logged σ |}.

Definition header_added (hdr val : string) (σ : State) : State :=
  {| w := {| Header := <[hdr := default [] (Header (w σ) !! hdr) ++ [val]]> (Header (w σ));
             calls := calls (w σ) |};
     logged := logged σ |}.

Definition call_w (c : WCall) : M unit := λ σ, Done () (wrote [c] σ).

Definition log (l : LogLine) : M unit := λ σ, Done () (printed [l] σ).

(** [Header().Set] and [Header().Add].  The keys the dispatcher uses are
    already in canonical MIME form. *)
Definition Header_Set (hdr val : string) : M unit := λ σ, Done () (header_set hdr val σ).

Definition Header_Add (hdr val : string) : M unit := λ σ, Done () (header_added hdr val σ).

(** ** Requests, contexts and handlers *)

(** [Form] is [req.Form] after [req.ParseForm()].  ParseForm makes a key
    only by appending a value to it, so every key has a first value. *)
Record Request := {
  Method : string;
  Path : string;
  Form : gmap string (string * list string)
}.

(** [Context] without its [Server] and [ResponseWriter] fields: the writer
    is in the [State]. *)
Record Context := {
  Request_ : Request;
  Params : gmap string string
}.

(** The values the dispatcher passes and receives: [reflect.ValueOf(&ctx)],
    and a value of type [t] with its bytes, which are the text of a value
    of kind String and the elements of a slice of bytes. *)
Inductive Value :=
  | ValueOfCtx (ctx : Context)
  | ValueOf (t : rtype) (data : bytes).

Definition Value_Type (v : Value) : rtype :=
  match v with
  | ValueOfCtx _ => TPtr contextType
  | ValueOf t _ => t
  end.

Definition Value_Kind (v : Value) : Kind := kindOf (Value_Type v).

Definition Value_String (v : Value) : string :=
  match v with
  | ValueOfCtx _ => "<*web.Context Value>"
  | ValueOf _ data => data
  end.

(** [v.Interface().([]byte)]: the assertion holds for the type [[]byte]
    itself only. *)
Definition Value_assert_bytes (v : Value) : M bytes :=
  match v with
  | ValueOf (TSlice TUint8) data => ret data
  | _ => panic ("interface conversion: interface {} is "
              +:+ rtype_String (Value_Type v) +:+ ", not []uint8")
  end.

(** A route's handler is a [reflect.Value]: the zero Value, which
    [reflect.ValueOf(nil)] gives, a function with its type and its
    behaviour, or a value of another type.  [reflect.Value.Call] returns
    one Value for each result the function declares, so the length of the
    list a body returns is the number of its declared results. *)
Inductive Handler :=
  | Invalid
  | FuncValue (ft : FuncType) (body : list Value → M (list Value))
  | DataValue (t : rtype).

Definition Handler_Type (h : Handler) : M reflectType :=
  match h with
  | Invalid => panic "reflect: call of reflect.Value.Type on zero Value"
  | FuncValue ft _ => ret (FuncOf ft)
  | DataValue t => ret (TypeOf t)
  end.

(** The first argument that cannot be assigned to its parameter, as the
    message of the panic it causes. *)
Fixpoint checkArgs (vs : list Value) (ts : list rtype) : option string :=
  match vs, ts with
  | v :: vs', t :: ts' =>
      if AssignableTo (Value_Type v) t then checkArgs vs' ts'
      else Some ("reflect: Call using " +:+ rtype_String (Value_Type v)
                 +:+ " as type " +:+ rtype_String t)
  | _, _ => None
  end.

Fixpoint checkVariadic (vs : list Value) (elem : rtype) : option string :=
  match vs with
  | v :: vs' =>
      if AssignableTo (Value_Type v) elem then checkVariadic vs' elem
      else Some ("reflect: cannot use " +:+ rtype_String (Value_Type v)
                 +:+ " as type " +:+ rtype_String elem +:+ " in Call")
  | [] => None
  end.

(** [reflect.Value.Call]: the checks on the number and the types of the
    arguments, then the function itself.  For a variadic function the
    arguments after the first [n] must fit the element type of the last
    parameter. *)
Definition Call (f : Handler) (args : list Value) : M (list Value) :=
  match f with
  | FuncValue ft body =>
      let n : nat := if IsVariadic ft then length (In ft) - 1 else length (In ft) in
      if bool_decide (length args < n)%nat then
        panic "reflect: Call with too few input arguments"
      else if negb (IsVariadic ft) && bool_decide (n < length args)%nat then
        panic "reflect: Call with too many input arguments"
      else
        match checkArgs (take n args) (In ft) with
        | Some err => panic err
        | None =>
            match (if IsVariadic ft
                   then checkVariadic (drop n args) (Elem (default TInterface (In ft !! n)))
                   else None) with
            | Some err => panic err
            | None => body args
            end
        end
  | Invalid => panic "reflect: call of reflect.Value.Call on zero Value"
  | DataValue t => panic ("reflect: call of reflect.Value.Call on "
                          +:+ rtype_String t +:+ " Value")
  end.

(** ** The server *)

Record ServerConfig := {
  StaticDir : string;
  Addr : string;
  Port : Z;
  CookieSecret : string;
  RecoverPanic : bool;
  Profiler : bool
}.

(** [Config] of web.go, the configuration of the main server. *)
Definition Config_ : ServerConfig :=
  {| StaticDir := ""; Addr := ""; Port := 0; CookieSecret := "";
     RecoverPanic := true; Profiler := false |}.

(** What a request finds around the process. *)
Class Surroundings := {
  (* os.Stat: None for an error, else whether the name is a directory *)
  Stat : string → option bool;
  Join : string → string → string;          (* path.Join of two elements *)
  defaultStaticDirs : list string;
  now : string;                              (* time.Now().UTC().Format(time.RFC1123) *)
  Callers : list (string * nat);             (* runtime.Caller(1), (2), ... while ok *)
  writeError : bytes → option string         (* the error of the final Write *)
}.

Section server.
Context `{RegexpLib, Surroundings}.

Record route := {
  r : string;
  cr : Regexp;
  method : string;
  handler : Handler
}.

(** [Logger] holds what the server's logger has printed so far. *)
Record Server := {
  Config : ServerConfig;
  routes : list route;
  Logger : list LogLine
}.

(** The [handler interface{}] of [addRoute]: a [reflect.Value] already,
    or any other value, given by what [reflect.ValueOf] makes of it. *)
Inductive HandlerArg :=
  | AsReflectValue (fv : Handler)
  | AsInterface (ValueOf_handler : Handler).

Definition addRoute (s : Server) (r : string) (method : string) (handler : HandlerArg) : Server :=
  match Compile r with
  | None =>
      {| Config := Config s; routes := routes s;
         Logger := Logger s ++ [LogRouteRegex r] |}
  | Some cr =>
      match handler with
      | AsReflectValue fv =>
          {| Config := Config s;
             routes := routes s ++ [{| r := r; cr := cr; method := method; handler := fv |}];
             Logger := Logger s |}
      | AsInterface h =>
          let fv := h in
          {| Config := Config s;
             routes := routes s ++ [{| r := r; cr := cr; method := method; handler := fv |}];
             Logger := Logger s |}
      end
  end.

Definition Get (s : Server) (route : string) (handler : HandlerArg) : Server :=
  addRoute s route "GET" handler.

Definition Post (s : Server) (route : string) (handler : HandlerArg) : Server :=
  addRoute s route "POST" handler.

Definition Put (s : Server) (route : string) (handler : HandlerArg) : Server :=
  addRoute s route "PUT" handler.

Definition Delete (s : Server) (route : string) (handler : HandlerArg) : Server :=
  addRoute s route "DELETE" handler.

Definition Match (s : Server) (method : string) (route : string) (handler : HandlerArg) : Server :=
  addRoute s route method handler.

(** [Context.SetHeader] and [Context.Abort]. *)
Definition SetHeader (hdr val : string) (unique : bool) : M unit :=
  if unique then Header_Set hdr val else Header_Add hdr val.

Definition Abort (status : nat) (body : string) : M unit :=
  call_w (WriteHeader status) ;;
  call_w (Write (bytes_of_string body)).

Definition fileExists (dir : string) : bool :=
  match Stat dir with
  | None => false
  | Some IsDir => negb IsDir
  end.

(** The loop of the deferred function of [safelyCall] over
    [runtime.Caller(i)], [i] from 1 until [ok] is false. *)
Fixpoint logCallers (frames : list (string * nat)) : M unit :=
  match frames with
  | [] => ret ()
  | (file, line) :: more => log (LogFrame file line) ;; logCallers more
  end.

(** [recover()] gives the value of the panic in flight, which is not nil
    (a [panic(nil)] arrives as a [*runtime.PanicNilError]). *)
Definition safelyCall (s : Server) (function : Handler) (args : list Value)
    : M (list Value * option string) :=
  λ σ, match Call function args σ with
       | Done resp σ' => Done (resp, None) σ'
       | Panicked err σ' =>
           if negb (RecoverPanic (Config s)) then
             Panicked err σ'
           else
             (log (LogHandlerCrashed err) ;;
              logCallers Callers ;;
              ret ([], Some err)) σ'
       end.

(** [NumIn] panics on a type that is not a function type. *)
Definition requiresContext (handlerType : reflectType) : M bool :=
  match handlerType with
  | TypeOf t => panic ("reflect: NumIn of non-func type " +:+ rtype_String t)
  | FuncOf ft =>
      match In ft with
      | [] => ret false
      | a0 :: _ =>
          if bool_decide (kindOf a0 ≠ Ptr) then ret false
          else if bool_decide (Elem a0 = contextType) then ret true
          else ret false
      end
  end.

Fixpoint tryStaticDirs (dirs : list string) (name : string) : M bool :=
  match dirs with
  | [] => ret false
  | staticDir :: more =>
      let staticFile := Join staticDir name in
      if fileExists staticFile then
        call_w (ServeFile staticFile) ;; ret true
      else tryStaticDirs more name
  end.

Definition tryServingFile (s : Server) (name : string) : M bool :=
  if bool_decide (StaticDir (Config s) ≠ "") then
    let staticFile := Join (StaticDir (Config s)) name in
    if fileExists staticFile then
      call_w (ServeFile staticFile) ;; ret true
    else ret false
  else tryStaticDirs defaultStaticDirs name.

(** Lines 437 to 446 of [routeHandler]: the arguments of the call. *)
Definition bindArgs (ctx : Context) (h : Handler) (match_ : list string) : M (list Value) :=
  handlerType <- Handler_Type h ;;
  withCtx <- requiresContext handlerType ;;
  let args := if withCtx then [ValueOfCtx ctx] else [] in
  ret (args ++ map (λ arg, ValueOf TString arg) (drop 1 match_)).

(** Lines 457 to 477 of [routeHandler]: what is written for the values
    the handler returned. *)
Definition writeReturn (ret_ : list Value) : M unit :=
  match ret_ with
  | [] => ret ()
  | sval :: _ =>
      content <-
        (if bool_decide (Value_Kind sval = String_) then
           ret (bytes_of_string (Value_String sval))
         else if bool_decide (Value_Kind sval = Slice)
                 && bool_decide (kindOf (Elem (Value_Type sval)) = Uint8) then
           Value_assert_bytes sval
         else ret "") ;;
      SetHeader "Content-Length" (Itoa (String.length content)) true ;;
      call_w (Write content) ;;
      match writeError content with
      | Some err => log (LogWriteError err)
      | None => ret ()
      end
  end.

(** The body of the loop of [routeHandler] from line 437 on, for the
    route the three tests before it let through. *)
Definition invokeRoute (s : Server) (ctx : Context) (route : route) (match_ : list string)
    : M unit :=
  args <- bindArgs ctx (handler route) match_ ;;
  called <- safelyCall s (handler route) args ;;
  let '(ret_, err) := called in
  (match err with
   | Some _ => Abort 500 "Server Error"
   | None => ret ()
   end) ;;
  writeReturn ret_.

(** The test of lines 418 to 420: the loop skips a route whose method is
    not the request's, except that HEAD may be used in place of GET. *)
Definition methodSkips (req : Request) (route : route) : bool :=
  bool_decide (Method req ≠ method route)
  && negb (bool_decide (Method req = "HEAD") && bool_decide (method route = "GET")).

(** The loop over [s.routes]: [true] when the body returned from
    [routeHandler], [false] when the loop ran to its end. *)
Fixpoint routeLoop (s : Server) (req : Request) (ctx : Context) (rs : list route) : M bool :=
  match rs with
  | [] => ret false
  | route :: rest =>
      let cr := cr route in
      if methodSkips req route then
        routeLoop s req ctx rest
      else if negb (MatchString cr (Path req)) then
        routeLoop s req ctx rest
      else
        let match_ := FindStringSubmatch cr (Path req) in
        match match_ with
        | [] => panic "runtime error: index out of range"
        | match0 :: _ =>
            if bool_decide (String.length match0 ≠ String.length (Path req)) then
              routeLoop s req ctx rest
            else
              invokeRoute s ctx route match_ ;; ret true
        end
  end.

Definition routeHandler (s : Server) (req : Request) : M unit :=
  let requestPath := Path req in
  let ctx := {| Request_ := req; Params := fst <$> Form req |} in
  log (LogRequest (Method req) requestPath
         (if bool_decide (0 < size (Form req))%nat then Some (Params ctx) else None)) ;;
  SetHeader "Server" "web.go" true ;;
  SetHeader "Date" (webTime now) true ;;
  served <-
    (if bool_decide (Method req = "GET") || bool_decide (Method req = "HEAD") then
       tryServingFile s requestPath
     else ret false) ;;
  if served : bool then ret () else
  SetHeader "Content-Type" "text/html; charset=utf-8" true ;;
  returned <- routeLoop s req ctx (routes s) ;;
  if returned : bool then ret () else
  served <-
    (if bool_decide (Method req = "GET") || bool_decide (Method req = "HEAD") then
       found <- tryServingFile s (Join requestPath "index.html") ;;
       if found : bool then ret true
       else tryServingFile s (Join requestPath "index.htm")
     else ret false) ;;
  if served : bool then ret () else
  Abort 404 "Page not found".

(** [Server.Process], which [ServeHTTP] calls. *)
Definition Process (s : Server) (req : Request) : M unit :=
  routeHandler s req.

(** ** The components as the specification words them

    These follow the text of the specification, not the code; the
    theorems below compare them with the code. *)

(** "skip a route if its method does not equal the request method,
    except a GET route also matches a HEAD request" *)
Definition methodCondition (req : Request) (route : route) : Prop :=
  Method req = method route ∨ (Method req = "HEAD" ∧ method route = "GET").

Global Instance methodCondition_dec req route : Decision (methodCondition req route).
Proof. unfold methodCondition. apply _. Defined.

(** "the pattern must match the entire path": the captures of the
    route when both conditions hold. *)
Definition accepts (req : Request) (route : route) : option (list string) :=
  if decide (methodCondition req route) then
    match FindStringSubmatch (cr route) (Path req) with
    | whole :: captures => if decide (whole = Path req) then Some captures else None
    | [] => None
    end
  else None.

(** "Return the first route satisfying both conditions along with its
    regex capture groups (excluding the whole-match group)." *)
Fixpoint Matcher (req : Request) (routes : list route) : option (route * list string) :=
  match routes with
  | [] => None
  | route :: rest =>
      match accepts req route with
      | Some captures => Some (route, captures)
      | None => Matcher req rest
      end
  end.

(** "its declared first parameter is a pointer/reference to the context
    type exactly" *)
Definition firstParamIsContextPtr (ft : FuncType) : Prop :=
  ∃ a0 more, In ft = a0 :: more ∧ kindOf a0 = Ptr ∧ Elem a0 = contextType.

(** The static-file resolver: the file it serves for a name, if any. *)
Definition staticFileFor (s : Server) (name : string) : option string :=
  if bool_decide (StaticDir (Config s) ≠ "") then
    if fileExists (Join (StaticDir (Config s)) name)
    then Some (Join (StaticDir (Config s)) name) else None
  else
    List.find fileExists (map (λ dir, Join dir name) defaultStaticDirs).

End server.

(** ** A small regexp library

    An instance of [RegexpLib] on which the dispatcher can be run: a
    backtracking matcher for the operators [. * + ? | ( ) ^ $] and
    backslash escapes over ASCII text, which finds the leftmost match and
    prefers, as Go does, the left branch of an alternation and one more
    round of a repetition.  [Compile] refuses patterns outside this
    fragment. *)

Module MiniRegexp.

Inductive re :=
  | Eps
  | Lit (c : ascii)
  | AnyChar
  | Bol
  | Eol
  | Cat (a b : re)
  | Alt (a b : re)
  | Star (a : re)
  | Group (i : nat) (a : re).

Definition isRepeat (c : ascii) : bool :=
  bool_decide (c = "*"%char) || bool_decide (c = "+"%char) || bool_decide (c = "?"%char).

Definition unsupported (c : ascii) : bool :=
  bool_decide (c = "["%char) || bool_decide (c = "]"%char)
  || bool_decide (c = "{"%char) || bool_decide (c = "}"%char).

Definition repeat_ (op : ascii) (e : re) : re :=
  if bool_decide (op = "*"%char) then Star e
  else if bool_decide (op = "+"%char) then Cat e (Star e)
  else Alt e Eps.

(** One repetition operator at most may follow an atom. *)
Definition postfix (e : re) (s : list ascii) : option (re * list ascii) :=
  match s with
  | op :: s' =>
      if isRepeat op then
        match s' with
        | op' :: _ => if isRepeat op' then None else Some (repeat_ op e, s')
        | [] => Some (repeat_ op e, s')
        end
      else Some (e, s)
  | [] => Some (e, s)
  end.

(** An alternation, up to the end of the text or an unmatched [)];
    [g] is the number of groups opened so far. *)
Fixpoint parseExpr (fuel : nat) (s : list ascii) (g : nat) : option (re * list ascii * nat) :=
  match fuel with
  | O => None
  | S fuel' =>
      let fix pieces (n : nat) (s : list ascii) (g : nat) (acc : re)
          : option (re * list ascii * nat) :=
        match n with
        | O => None
        | S n' =>
            match s with
            | [] => Some (acc, s, g)
            | c :: s' =>
                if bool_decide (c = "|"%char) || bool_decide (c = ")"%char) then Some (acc, s, g)
                else if isRepeat c || unsupported c then None
                else
                  let atom :=
                    if bool_decide (c = "("%char) then
                      match parseExpr fuel' s' (S g) with
                      | Some (e, c' :: s'', g') =>
                          if bool_decide (c' = ")"%char) then Some (Group g e, s'', g') else None
                      | _ => None
                      end
                    else if bool_decide (c = "\"%char) then
                      match s' with
                      | c' :: s'' => Some (Lit c', s'', g)
                      | [] => None
                      end
                    else if bool_decide (c = "."%char) then Some (AnyChar, s', g)
                    else if bool_decide (c = "^"%char) then Some (Bol, s', g)
                    else if bool_decide (c = "$"%char) then Some (Eol, s', g)
                    else Some (Lit c, s', g) in
                  match atom with
                  | Some (e, rest, g') =>
                      match postfix e rest with
                      | Some (e', rest') => pieces n' rest' g' (Cat acc e')
                      | None => None
                      end
                  | None => None
                  end
            end
        end in
      match pieces (S (length s)) s g Eps with
      | Some (e, c :: s', g') =>
          if bool_decide (c = "|"%char) then
            match parseExpr fuel' s' g' with
            | Some (e2, s'', g'') => Some (Alt e e2, s'', g'')
            | None => None
            end
          else Some (e, c :: s', g')
      | other => other
      end
  end.

Definition compile (pattern : string) : option (re * nat) :=
  let s := list_ascii_of_string pattern in
  match parseExpr (S (length s)) s 0 with
  | Some (e, [], g) => Some (e, g)
  | _ => None
  end.

Definition captures := list (option (nat * nat)).

(** A repetition of [step], at most [n] rounds, each of which must move
    on in the text; one more round is tried before going on with [k]. *)
Fixpoint starLoop {R}
    (step : list ascii → nat → captures → (list ascii → nat → captures → option R) → option R)
    (k : list ascii → nat → captures → option R)
    (n : nat) (s : list ascii) (pos : nat) (cs : captures) : option R :=
  match n with
  | O => k s pos cs
  | S n' =>
      match step s pos cs
              (λ s' pos' cs', if bool_decide (pos' = pos) then None
                              else starLoop step k n' s' pos' cs') with
      | Some x => Some x
      | None => k s pos cs
      end
  end.

(** [run e s pos cs k]: match [e] at offset [pos], where [s] is the text
    from there on, then go on with [k]; what fails is tried again in the
    next way, the left branch of an alternation before the right. *)
Fixpoint run {R} (e : re) (s : list ascii) (pos : nat) (cs : captures)
    (k : list ascii → nat → captures → option R) : option R :=
  match e with
  | Eps => k s pos cs
  | Lit c =>
      match s with
      | c' :: s' => if bool_decide (c = c') then k s' (S pos) cs else None
      | [] => None
      end
  | AnyChar =>
      match s with
      | c' :: s' => if bool_decide (c' = "010"%char) then None else k s' (S pos) cs
      | [] => None
      end
  | Bol => if bool_decide (pos = 0) then k s pos cs else None
  | Eol => match s with [] => k s pos cs | _ => None end
  | Cat a b => run a s pos cs (λ s' pos' cs', run b s' pos' cs' k)
  | Alt a b =>
      match run a s pos cs k with
      | Some x => Some x
      | None => run b s pos cs k
      end
  | Star a => starLoop (run a) k (S (length s)) s pos cs
  | Group i a =>
      run a s pos cs (λ s' pos' cs', k s' pos' (<[i := Some (pos, pos')]> cs'))
  end.

(** A matcher in this style goes forward: when it succeeds, its
    continuation succeeded at an offset not before the start, on the rest
    of the text from there. *)
Definition forward {R}
    (m : list ascii → nat → captures → (list ascii → nat → captures → option R) → option R)
    : Prop :=
  ∀ s pos cs k x,
    m s pos cs k = Some x →
    ∃ s' pos' cs', k s' pos' cs' = Some x ∧ (pos ≤ pos')%nat
                   ∧ pos' + length s' = pos + length s.

(** The leftmost match: the first offset from which a match starts. *)
Fixpoint search (e : re) (ncap : nat) (s : list ascii) (start : nat)
    : option ((nat * nat) * captures) :=
  match run e s start (replicate ncap None) (λ _ pos' cs, Some ((start, pos'), cs)) with
  | Some x => Some x
  | None =>
      match s with
      | [] => None
      | _ :: s' => search e ncap s' (S start)
      end
  end.

Definition execute (p : re * nat) (s : string) : option ((nat * nat) * captures) :=
  search p.1 p.2 (list_ascii_of_string s) 0.

#[export] Instance lib : RegexpLib :=
  {| Regexp := re * nat; Compile := compile; doExecute := execute |}.

End MiniRegexp.

(** ** A server to run

    Surroundings without static files, the small regexp library, and a few
    handlers written as Go would declare them. *)

Module Example.
Import MiniRegexp.

(** [path.Join] of a directory and a name that are already clean. *)
Definition join (dir name : string) : string :=
  let dir := if HasSuffix dir "/" then slice dir 0 (String.length dir - 1) else dir in
  let name := if bool_decide (slice name 0 1 = "/") then slice name 1 (String.length name) else name in
  dir +:+ "/" +:+ name.

#[export] Instance noFiles : Surroundings :=
  {| Stat := λ _, None;
     Join := join;
     defaultStaticDirs := ["/srv/app/static"; "/srv/static"];
     now := "Mon, 02 Jan 2006 15:04:05 UTC";
     Callers := [("server.go", 306); ("server.go", 449)];
     writeError := λ _, None |}.

(** The same with one file, [/srv/static/logo.png]. *)
Definition oneFile : Surroundings :=
  {| Stat := λ name, if bool_decide (name = "/srv/static/logo.png") then Some false else None;
     Join := join;
     defaultStaticDirs := ["/srv/app/static"; "/srv/static"];
     now := "Mon, 02 Jan 2006 15:04:05 UTC";
     Callers := [];
     writeError := λ _, None |}.

(** [func(val string) string { return val }] *)
Definition echo : Handler :=
  FuncValue {| In := [TString]; IsVariadic := false |}
    (λ args, match args with
             | [ValueOf _ val] => ret [ValueOf TString val]
             | _ => ret [ValueOf TString ""]
             end).

(** [func() string { return "page" }] *)
Definition specific : Handler :=
  FuncValue {| In := []; IsVariadic := false |} (λ _, ret [ValueOf TString "page"]).

(** [func(ctx *Context, name string) { ctx.WriteString("hi " + name) }] *)
Definition greet : Handler :=
  FuncValue {| In := [TPtr contextType; TString]; IsVariadic := false |}
    (λ args, match args with
             | [ValueOfCtx _; ValueOf _ name] => call_w (Write ("hi " +:+ name)) ;; ret []
             | _ => ret []
             end).

(** [func() string { panic("boom") }] *)
Definition crash : Handler :=
  FuncValue {| In := []; IsVariadic := false |} (λ _, panic "boom").

(** [func() (string, int) { return "first", 2 }] and
    [func() (string, string) { return "first", "second" }] *)
Definition two : Handler :=
  FuncValue {| In := []; IsVariadic := false |}
    (λ _, ret [ValueOf TString "first"; ValueOf TInt "2"]).

Definition two' : Handler :=
  FuncValue {| In := []; IsVariadic := false |}
    (λ _, ret [ValueOf TString "first"; ValueOf TString "second"]).

(** [func(n int) string { return "number" }] *)
Definition wantsInt : Handler :=
  FuncValue {| In := [TInt]; IsVariadic := false |} (λ _, ret [ValueOf TString "number"]).

(** [func(parts ...interface{}) string { return "any" }] *)
Definition variadic : Handler :=
  FuncValue {| In := [TSlice TInterface]; IsVariadic := true |}
    (λ _, ret [ValueOf TString "any"]).

(** [func() int { return 7 }] *)
Definition seven : Handler :=
  FuncValue {| In := []; IsVariadic := false |} (λ _, ret [ValueOf TInt "7"]).

(** [func() []byte { return []byte{0xc3, 0xa9} }], the UTF-8 bytes of
    one accented letter, and [func() string] returning the same text. *)
Definition eacute : string := String (ascii_of_nat 195) (String (ascii_of_nat 169) EmptyString).

Definition rawBytes : Handler :=
  FuncValue {| In := []; IsVariadic := false |} (λ _, ret [ValueOf (TSlice TUint8) eacute]).

(** [func() json.RawMessage { return json.RawMessage("{}") }], where
    package json declares [type RawMessage []byte]. *)
Definition rawValue : Value := ValueOf (TDefined "json.RawMessage" (TSlice TUint8)) "{}".

Definition rawMessage : Handler :=
  FuncValue {| In := []; IsVariadic := false |} (λ _, ret [rawValue]).

Definition accented : Handler :=
  FuncValue {| In := []; IsVariadic := false |} (λ _, ret [ValueOf TString eacute]).

Definition emptyServer : Server :=
  {| Config := Config_; routes := []; Logger := [] |}.

(** [regexp.MustCompile], for patterns that compile. *)
Definition MustCompile (pattern : string) : Regexp :=
  default (Eps, 0) (Compile pattern).

Definition mkRoute (method pattern : string) (h : Handler) : route :=
  {| r := pattern; cr := MustCompile pattern; method := method; handler := h |}.

Definition hello : route := mkRoute "GET" "/hello/(.+)" echo.
Definition catchAll : route := mkRoute "GET" "/(.*)" echo.
Definition posted : route := mkRoute "POST" "/(.*)" echo.
Definition page : route := mkRoute "GET" "/specific" specific.

Definition request (method path : string) : Request :=
  {| Method := method; Path := path; Form := ∅ |}.

Definition σ0 : State := {| w := {| Header := ∅; calls := [] |}; logged := [] |}.

Definition context (req : Request) : Context :=
  {| Request_ := req; Params := ∅ |}.

(** A request on a fresh writer. *)
Definition run (s : Server) (method path : string) : Result unit :=
  routeHandler s (request method path) σ0.

(** What a run leaves: the calls on the writer, or the panic. *)
Definition callsOf {A} (res : Result A) : list WCall + string :=
  match res with
  | Done _ σ => inl (calls (w σ))
  | Panicked err _ => inr err
  end.

Definition headerOf {A} (res : Result A) (hdr : string) : option (list string) :=
  match res with
  | Done _ σ => Header (w σ) !! hdr
  | Panicked _ σ => Header (w σ) !! hdr
  end.

End Example.

(** * The rest of the package

    utils.go (dirExists, Urlencode, NewCookie), the methods of [Context]
    in web.go with the secure cookies, and the SCGI and FastCGI
    transports. *)

(** A function without effects that may panic. *)
Inductive Try (A : Type) :=
  | Returns (a : A)
  | Panics (err : string).
Arguments Returns {A} a.
Arguments Panics {A} err.

(** ** package strings and package net/url *)

(** [strings.HasPrefix]. *)
Definition HasPrefix (s prefix : string) : bool :=
  bool_decide (slice s 0 (String.length prefix) = prefix).

(** [strings.ContainsRune] for a rune below 128, which is one byte and no
    part of the encoding of another rune. *)
Fixpoint ContainsRune (s : string) (r : ascii) : bool :=
  match s with
  | EmptyString => false
  | String c s' => bool_decide (c = r) || ContainsRune s' r
  end.

(** The number of bytes [c] in [s]. *)
Fixpoint countByte (c : ascii) (s : string) : nat :=
  match s with
  | EmptyString => 0
  | String c' s' => (if bool_decide (c' = c) then 1 else 0) + countByte c s'
  end.

(** [strings.SplitN] for a separator of one byte. *)
Fixpoint cut (s : string) (sep : ascii) : option (string * string) :=
  match s with
  | EmptyString => None
  | String c s' =>
      if bool_decide (c = sep) then Some ("", s')
      else match cut s' sep with
           | Some (before, after) => Some (String c before, after)
           | None => None
           end
  end.

Fixpoint SplitN (s : string) (sep : ascii) (n : nat) : list string :=
  match n with
  | 0 => []
  | 1 => [s]
  | S n' =>
      match cut s sep with
      | Some (before, after) => before :: SplitN after sep n'
      | None => [s]
      end
  end.

Definition isAlnum (c : ascii) : bool :=
  let n := N_of_ascii c in
  ((97 <=? n) && (n <=? 122) || (65 <=? n) && (n <=? 90) || (48 <=? n) && (n <=? 57))%N.

(** [shouldEscape(c, encodeQueryComponent)]: all but the letters, the
    digits and the four marks. *)
Definition shouldEscape (c : ascii) : bool :=
  if isAlnum c then false
  else if bool_decide (c = "-"%char) || bool_decide (c = "_"%char)
          || bool_decide (c = "."%char) || bool_decide (c = "~"%char) then false
  else true.

Definition hexDigit (digits : string) (n : N) : ascii :=
  nth (N.to_nat n) (list_ascii_of_string digits) "0"%char.

(** [url.QueryEscape]. *)
Fixpoint QueryEscape (s : string) : string :=
  match s with
  | EmptyString => ""
  | String c s' =>
      if bool_decide (c = " "%char) then String "+" (QueryEscape s')
      else if shouldEscape c then
        String "%" (String (hexDigit "0123456789ABCDEF" (N_of_ascii c / 16))
                      (String (hexDigit "0123456789ABCDEF" (N_of_ascii c mod 16))
                         (QueryEscape s')))
      else String c (QueryEscape s')
  end.

(** ** utils.go *)

Section utils.
Context `{Surroundings}.

Definition dirExists (dir : string) : bool :=
  match Stat dir with
  | None => false
  | Some IsDir => if negb IsDir then false else true
  end.

End utils.

(** What the loop of [Urlencode] leaves in the buffer for the pairs the
    range gives, in the order it gives them. *)
Fixpoint writePairs (buf : string) (pairs : list (string * string)) : string :=
  match pairs with
  | [] => buf
  | (k, v) :: more =>
      writePairs (buf +:+ QueryEscape k +:+ "=" +:+ QueryEscape v +:+ "&") more
  end.

Definition Urlencode_over (pairs : list (string * string)) : Try string :=
  let s := writePairs "" pairs in
  if bool_decide (String.length s = 0)
  then Panics "runtime error: slice bounds out of range [:-1]"
  else Returns (slice s 0 (String.length s - 1)).

(** [Urlencode]; Go ranges over a map in an order of its own, taken here
    to be that of [map_to_list]. *)
Definition Urlencode (data : gmap string string) : Try string :=
  Urlencode_over (map_to_list data).

(** An [http.Cookie], with [Expires] in seconds since 1970. *)
Record Cookie := {
  Cookie_Name : string;
  Cookie_Value : string;
  Cookie_Expires : Z
}.

(** An [int64] after an addition or a subtraction. *)
Definition wrap64 (z : Z) : Z := ((z + 2 ^ 63) mod 2 ^ 64 - 2 ^ 63)%Z.

(** [NewCookie], with what [time.Now().Unix()] gives. *)
Definition NewCookie (name value : string) (age : Z) (now : Z) : Cookie :=
  let utctime := if bool_decide (age = 0%Z) then 2147483647%Z else wrap64 (now + age) in
  {| Cookie_Name := name; Cookie_Value := value; Cookie_Expires := utctime |}.

(** ** crypto/sha1, crypto/hmac and encoding/base64

    Bytes are numbers below 256 and words are numbers below 2^32, in [Z]. *)

Module crypto.
Local Open Scope Z_scope.

Definition w32 (x : Z) : Z := x mod 2 ^ 32.

Definition rotl (n x : Z) : Z := w32 (Z.lor (Z.shiftl x n) (Z.shiftr x (32 - n))).

Definition bytesOf (s : string) : list Z :=
  map (λ c, Z.of_N (N_of_ascii c)) (list_ascii_of_string s).

Definition stringOf (l : list Z) : string :=
  string_of_list_ascii (map (λ b, ascii_of_N (Z.to_N b)) l).

(** The [n] low bytes of [x], the highest first. *)
Fixpoint bigEndian (n : nat) (x : Z) : list Z :=
  match n with
  | O => []
  | S n' => bigEndian n' (x / 256) ++ [x mod 256]
  end.

(** The message with the bit 1, zeros and its length in bits, a multiple
    of 64 bytes long. *)
Definition pad (msg : list Z) : list Z :=
  let len := Z.of_nat (length msg) in
  msg ++ [128] ++ replicate (Z.to_nat ((55 - len) mod 64)) 0 ++ bigEndian 8 (8 * len).

Fixpoint words (n : nat) (l : list Z) : list Z :=
  match n with
  | O => []
  | S n' =>
      match l with
      | a :: b :: c :: d :: l' => (((a * 256 + b) * 256 + c) * 256 + d) :: words n' l'
      | _ => []
      end
  end.

(** The schedule of a block: [n] more words, the latest first. *)
Fixpoint schedule (n : nat) (rev_w : list Z) : list Z :=
  match n with
  | O => rev_w
  | S n' =>
      let at_ i := default 0 (rev_w !! i) in
      schedule n' (rotl 1 (Z.lxor (Z.lxor (at_ 2%nat) (at_ 7%nat))
                              (Z.lxor (at_ 13%nat) (at_ 15%nat))) :: rev_w)
  end.

Definition round (i : nat) (st : Z * Z * Z * Z * Z) (wi : Z) : Z * Z * Z * Z * Z :=
  let '(a, b, c, d, e) := st in
  let '(f, k) :=
    if bool_decide (i < 20)%nat then
      (Z.lor (Z.land b c) (Z.land (Z.lxor b (2 ^ 32 - 1)) d), 1518500249)
    else if bool_decide (i < 40)%nat then (Z.lxor (Z.lxor b c) d, 1859775393)
    else if bool_decide (i < 60)%nat then
      (Z.lor (Z.lor (Z.land b c) (Z.land b d)) (Z.land c d), 2400959708)
    else (Z.lxor (Z.lxor b c) d, 3395469782) in
  (w32 (rotl 5 a + f + e + k + wi), a, rotl 30 b, c, d).

Fixpoint rounds (i : nat) (ws : list Z) (st : Z * Z * Z * Z * Z) : Z * Z * Z * Z * Z :=
  match ws with
  | [] => st
  | wi :: ws' => rounds (S i) ws' (round i st wi)
  end.

Definition block (h : Z * Z * Z * Z * Z) (chunk : list Z) : Z * Z * Z * Z * Z :=
  let '(h0, h1, h2, h3, h4) := h in
  let w := rev (schedule 64 (rev (words 16 chunk))) in
  let '(a, b, c, d, e) := rounds 0 w h in
  (w32 (h0 + a), w32 (h1 + b), w32 (h2 + c), w32 (h3 + d), w32 (h4 + e)).

Fixpoint blocks (n : nat) (h : Z * Z * Z * Z * Z) (l : list Z) : Z * Z * Z * Z * Z :=
  match n with
  | O => h
  | S n' => blocks n' (block h (take 64 l)) (drop 64 l)
  end.

(** [sha1.Sum]: the digest of 20 bytes. *)
Definition sha1 (msg : list Z) : list Z :=
  let padded := pad msg in
  let '(h0, h1, h2, h3, h4) :=
    blocks (length padded / 64) (1732584193, 4023233417, 2562383102, 271733878, 3285377520)
      padded in
  bigEndian 4 h0 ++ bigEndian 4 h1 ++ bigEndian 4 h2 ++ bigEndian 4 h3 ++ bigEndian 4 h4.

(** [hmac.New(sha1.New, key)] after the writes of the bytes of [msg],
    then [Sum(nil)]. *)
Definition hmac_sha1 (key msg : list Z) : list Z :=
  let key := if bool_decide (64 < length key)%nat then sha1 key else key in
  let key := key ++ replicate (64 - length key)%nat 0 in
  sha1 (map (Z.lxor 92) key ++ sha1 (map (Z.lxor 54) key ++ msg)).

(** [fmt.Sprintf("%02x", b)] for a slice [b] that is not empty: two
    digits for each byte. *)
Definition hex (l : list Z) : string :=
  string_of_list_ascii
    (flat_map (λ b, [hexDigit "0123456789abcdef" (Z.to_N (b / 16));
                     hexDigit "0123456789abcdef" (Z.to_N (b mod 16))]) l).

End crypto.

Module base64.
Local Open Scope N_scope.

Definition encodeStd : string :=
  "ABCDEFGHIJKLMNOPQRSTUVWXYZabcdefghijklmnopqrstuvwxyz0123456789+/".

Definition enc (i : N) : ascii :=
  nth (N.to_nat i) (list_ascii_of_string encodeStd) "A"%char.

(** The decode map of the standard encoding. *)
Definition dec (c : ascii) : option N :=
  let n := N_of_ascii c in
  if (65 <=? n) && (n <=? 90) then Some (n - 65)
  else if (97 <=? n) && (n <=? 122) then Some (n - 71)
  else if (48 <=? n) && (n <=? 57) then Some (n + 4)
  else if n =? 43 then Some 62
  else if n =? 47 then Some 63
  else None.

Definition pad : ascii := "="%char.

(** [Encoding.Encode] of the standard encoding. *)
Fixpoint encode (src : list ascii) : list ascii :=
  match src with
  | a :: b :: c :: rest =>
      let val := N_of_ascii a * 65536 + N_of_ascii b * 256 + N_of_ascii c in
      enc (val / 262144 mod 64) :: enc (val / 4096 mod 64)
        :: enc (val / 64 mod 64) :: enc (val mod 64) :: encode rest
  | [a; b] =>
      let val := N_of_ascii a * 65536 + N_of_ascii b * 256 in
      [enc (val / 262144 mod 64); enc (val / 4096 mod 64); enc (val / 64 mod 64); pad]
  | [a] =>
      let val := N_of_ascii a * 65536 in
      [enc (val / 262144 mod 64); enc (val / 4096 mod 64); pad; pad]
  | [] => []
  end.

(** What a [bytes.Buffer] holds after [NewEncoder], [Write] and [Close]. *)
Definition EncodeToString (src : string) : string :=
  string_of_list_ascii (encode (list_ascii_of_string src)).

(** The bytes the decoder gives before its first error: whole groups of
    four, the last of which may be padded. *)
Fixpoint decode (src : list ascii) : list ascii :=
  match src with
  | c0 :: c1 :: c2 :: c3 :: rest =>
      match dec c0, dec c1 with
      | Some j0, Some j1 =>
          match dec c2, dec c3 with
          | Some j2, Some j3 =>
              let val := ((j0 * 64 + j1) * 64 + j2) * 64 + j3 in
              ascii_of_N (val / 65536) :: ascii_of_N (val / 256 mod 256)
                :: ascii_of_N (val mod 256) :: decode rest
          | Some j2, None =>
              if bool_decide (c3 = pad) then
                let val := ((j0 * 64 + j1) * 64 + j2) * 64 in
                [ascii_of_N (val / 65536); ascii_of_N (val / 256 mod 256)]
              else []
          | None, _ =>
              if bool_decide (c2 = pad) && bool_decide (c3 = pad) then
                [ascii_of_N ((j0 * 64 + j1) * 4096 / 65536)]
              else []
          end
      | _, _ => []
      end
  | _ => []
  end.

(** [ioutil.ReadAll(base64.NewDecoder(base64.StdEncoding, buf))] with its
    error dropped; the decoder passes over the bytes CR and LF. *)
Definition ReadAll (src : string) : string :=
  string_of_list_ascii
    (decode (filter (λ c, c ≠ "013"%char ∧ c ≠ "010"%char) (list_ascii_of_string src))).

End base64.

(** [strconv.FormatInt(n, 10)]. *)
Definition FormatInt (n : Z) : string := NilZero.string_of_int (Z.to_int n).

(** ** web.go: the methods of [Context] *)

(** Of the packages web.go calls: the type [mime.TypeByExtension] finds,
    the line [http.Cookie.String] makes of a cookie, the number
    [strconv.ParseInt(s, 0, 64)] returns beside its error, and [Println]
    of the server's logger. *)
Class Packages := {
  TypeByExtension : string → string;
  Cookie_String : Cookie → string;
  ParseInt : string → Z;
  Println : string → M unit
}.

Section context.
Context `{Packages}.

Definition WriteString (content : string) : M unit :=
  call_w (Write (bytes_of_string content)).

Definition Redirect (status : nat) (url_ : string) : M unit :=
  Header_Set "Location" url_ ;;
  call_w (WriteHeader status) ;;
  call_w (Write (bytes_of_string ("Redirecting to: " +:+ url_))).

Definition NotModified : M unit := call_w (WriteHeader 304).

Definition NotFound (message : string) : M unit :=
  call_w (WriteHeader 404) ;;
  call_w (Write (bytes_of_string message)).

Definition ContentType (val : string) : M string :=
  let ctype :=
    if ContainsRune val "/" then val
    else
      let val := if negb (HasPrefix val ".") then "." +:+ val else val in
      TypeByExtension val in
  (if bool_decide (ctype ≠ "") then Header_Set "Content-Type" ctype else ret ()) ;;
  ret ctype.

Definition SetCookie (cookie : Cookie) : M unit :=
  @SetHeader "Set-Cookie" (Cookie_String cookie) false.

Definition getCookieSig (key : string) (val : bytes) (timestamp : string) : string :=
  crypto.hex (crypto.hmac_sha1 (crypto.bytesOf key)
                (crypto.bytesOf val ++ crypto.bytesOf timestamp)).

(** [now] is the time of the stamp, [now'] the time [NewCookie] reads. *)
Definition SetSecureCookie (config : ServerConfig) (now now' : Z)
    (name val : string) (age : Z) : M unit :=
  if bool_decide (String.length (CookieSecret config) = 0) then
    Println "Secret Key for secure cookies has not been set. Please assign a cookie secret to web.Config.CookieSecret."
  else
    let vs := base64.EncodeToString val in
    let vb := bytes_of_string vs in
    let timestamp := FormatInt now in
    let sig := getCookieSig (CookieSecret config) vb timestamp in
    let cookie := String.concat "|" [vs; timestamp; sig] in
    SetCookie (NewCookie name cookie age now').

(** [cookies] is [ctx.Request.Cookies()]. *)
Fixpoint GetSecureCookie (config : ServerConfig) (now : Z) (cookies : list Cookie)
    (name : string) : Try (string * bool) :=
  match cookies with
  | [] => Returns ("", false)
  | cookie :: more =>
      if bool_decide (Cookie_Name cookie ≠ name) then GetSecureCookie config now more name
      else
        match SplitN (Cookie_Value cookie) "|" 3 with
        | [val; timestamp; sig] =>
            if bool_decide (getCookieSig (CookieSecret config) (bytes_of_string val) timestamp ≠ sig)
            then Returns ("", false)
            else
              let ts := ParseInt timestamp in
              if bool_decide (ts < wrap64 (now - 31 * 86400))%Z then Returns ("", false)
              else Returns (base64.ReadAll val, true)
        | [_] => Panics "runtime error: index out of range [1] with length 1"
        | _ => Panics "runtime error: index out of range [2] with length 2"
        end
  end.

End context.

(** ** scgi.go: the connection as a response writer

    [fd] holds what was written to the descriptor, one element for each
    [Write] on it.  [statusText], the table of the reason phrases, is
    declared in a file of the package that is not at hand and is taken as
    it comes; a status it lacks has the empty phrase.  Go ranges over the
    headers in an order of its own: [range] is the list of the entries a
    [for k, v := range] goes through. *)

Definition CRLF : string := String "013" (String "010" EmptyString).

Record scgiConn := {
  fd : list bytes;
  req_Method : string;
  headers : gmap string (list string);
  wroteHeaders : bool
}.

Section scgi.
Context (statusText : gmap nat string).
Context (range : gmap string (list string) → list (string * list string)).

(** The two loops over [conn.headers]: a line for each value. *)
Definition headerLines (headers : gmap string (list string)) : string :=
  String.concat ""
    (flat_map (λ kv, map (λ i, kv.1 +:+ ": " +:+ i +:+ CRLF) kv.2) (range headers)).

Definition scgiConn_WriteHeader (status : nat) (conn : scgiConn) : scgiConn :=
  if negb (wroteHeaders conn) then
    let text := default "" (statusText !! status) in
    let buf := "HTTP/1.1 " +:+ Itoa status +:+ " " +:+ text +:+ CRLF
               +:+ headerLines (headers conn) +:+ CRLF in
    {| fd := fd conn ++ [buf]; req_Method := req_Method conn;
       headers := headers conn; wroteHeaders := true |}
  else conn.

(** [Write] with the error it returns; the descriptor takes all it is
    given. *)
Definition scgiConn_Write (data : bytes) (conn : scgiConn) : scgiConn * option string :=
  let conn := if negb (wroteHeaders conn) then scgiConn_WriteHeader 200 conn else conn in
  if bool_decide (req_Method conn = "HEAD") then (conn, Some "Body Not Allowed")
  else
    ({| fd := fd conn ++ [data]; req_Method := req_Method conn;
        headers := headers conn; wroteHeaders := wroteHeaders conn |}, None).

Definition finishRequest (conn : scgiConn) : scgiConn :=
  if negb (wroteHeaders conn) then
    {| fd := fd conn ++ [headerLines (headers conn) +:+ CRLF]; req_Method := req_Method conn;
       headers := headers conn; wroteHeaders := true |}
  else conn.

(** What the user of an [http.ResponseWriter] does with it: a change of
    the map [Header()] returns, [WriteHeader] and [Write]. *)
Inductive ConnOp :=
  | OpHeader (change : gmap string (list string) → gmap string (list string))
  | OpWriteHeader (status : nat)
  | OpWrite (data : bytes).

Definition withHeaders (h : gmap string (list string)) (conn : scgiConn) : scgiConn :=
  {| fd := fd conn; req_Method := req_Method conn; headers := h;
     wroteHeaders := wroteHeaders conn |}.

Definition connOp (op : ConnOp) (conn : scgiConn) : scgiConn :=
  match op with
  | OpHeader change => withHeaders (change (headers conn)) conn
  | OpWriteHeader status => scgiConn_WriteHeader status conn
  | OpWrite data => (scgiConn_Write data conn).1
  end.

Definition connOps (ops : list ConnOp) (conn : scgiConn) : scgiConn :=
  foldl (λ conn op, connOp op conn) conn ops.

(** The connection [handleScgiRequest] makes for a request. *)
Definition newConn (method : string) : scgiConn :=
  {| fd := []; req_Method := method; headers := ∅; wroteHeaders := false |}.

(** The status line of the block that opens with [op], and the data the
    writes of [ops] carry. *)
Definition statusLine (status : nat) : string :=
  "HTTP/1.1 " +:+ Itoa status +:+ " " +:+ default "" (statusText !! status) +:+ CRLF.

Definition statusOf (op : ConnOp) : option nat :=
  match op with
  | OpWriteHeader status => Some status
  | OpWrite _ => Some 200
  | OpHeader _ => None
  end.

Definition written (ops : list ConnOp) : list bytes :=
  omap (λ op, match op with OpWrite data => Some data | _ => None end) ops.

End scgi.

(** The header lines of [readScgiRequest]: the header block cut at its
    zero bytes, and the map made of the pieces taken two by two. *)
Fixpoint Split (s : string) (sep : ascii) (fuel : nat) : list string :=
  match fuel with
  | O => [s]
  | S fuel' =>
      match cut s sep with
      | Some (before, after) => before :: Split after sep fuel'
      | None => [s]
      end
  end.

Fixpoint pairUp (headers : gmap string string) (headerList : list string) : gmap string string :=
  match headerList with
  | k :: v :: more => pairUp (<[k := v]> headers) more
  | _ => headers
  end.

Definition scgiHeaders (headerData : bytes) : gmap string string :=
  pairUp ∅ (Split headerData "000" (String.length headerData)).

(** ** fcgi.go and scgi.go: the call of [net.Listen] *)

Inductive Listen := net_Listen (network address : string).

(** Lines 14 to 19 of [listenAndServeFcgi]. *)
Definition fcgiListen (addr : string) : Try Listen :=
  match addr with
  | EmptyString => Panics "runtime error: index out of range [0] with length 0"
  | String c _ =>
      if bool_decide (c = "/"%char) then Returns (net_Listen "unix" addr)
      else Returns (net_Listen "tcp" addr)
  end.

(** The same lines of [listenAndServeScgi]. *)
Definition scgiListen (addr : string) : Listen :=
  if HasPrefix addr "/" then net_Listen "unix" addr else net_Listen "tcp" addr.

(** ** server.go: [initServer]

    The fields [Config] and [Logger] of a [Server] are pointers, nil in a
    server made by the literal [Server{}]. *)

Section initServer.
Context `{RegexpLib}.

Record ServerStruct := {
  Config_ptr : option ServerConfig;
  routes_ : list route;
  Logger_ptr : option (list LogLine)
}.

Definition initServer (s : ServerStruct) : ServerStruct :=
  {| Config_ptr :=
       match Config_ptr s with
       | None => Some {| StaticDir := ""; Addr := ""; Port := 0; CookieSecret := "";
                         RecoverPanic := false; Profiler := false |}
       | Some c => Some c
       end;
     routes_ := routes_ s;
     Logger_ptr :=
       match Logger_ptr s with
       | None => Some []
       | Some l => Some l
       end |}.

(** The server behind the pointers, when they are set. *)
Definition deref (s : ServerStruct) : option Server :=
  match Config_ptr s, Logger_ptr s with
  | Some c, Some l => Some {| Config := c; routes := routes_ s; Logger := l |}
  | _, _ => None
  end.

End initServer.

(** ** Handlers that can be relied on

    A handler is a function, and the first value it returns, if any, is
    not of a defined type over a slice of bytes, nor a slice of a defined
    byte type. *)

Definition plainReturn (rets : list Value) : Prop :=
  match rets with
  | [] => True
  | sval :: _ =>
      Value_Kind sval = String_
      ∨ ¬ (Value_Kind sval = Slice ∧ kindOf (Elem (Value_Type sval)) = Uint8)
      ∨ ∃ data, sval = ValueOf (TSlice TUint8) data
  end.

Definition plainHandler (h : Handler) : Prop :=
  ∃ ft body, h = FuncValue ft body ∧
    ∀ args σ rets σ', body args σ = Done rets σ' → plainReturn rets.

(** A computation that returns from every state. *)
Definition returns {A} (m : M A) : Prop := ∀ σ, ∃ a σ', m σ = Done a σ'.

(** ** Examples for the rest of the package *)

Module Example2.
Import Example.

(** A table of types, a cookie line of name and value, decimal numbers
    and a logger that keeps nothing. *)
#[export] Instance packages : Packages :=
  {| TypeByExtension := λ ext,
       if bool_decide (ext = ".json") then "application/json"
       else if bool_decide (ext = ".html") then "text/html; charset=utf-8"
       else "";
     Cookie_String := λ c, Cookie_Name c +:+ "=" +:+ Cookie_Value c;
     ParseInt := λ s, match NilZero.int_of_string s with
                      | Some d => Z.of_int d
                      | None => 0%Z
                      end;
     Println := λ _, ret () |}.

Definition secret : ServerConfig :=
  {| StaticDir := ""; Addr := ""; Port := 0; CookieSecret := "7C7C5C2D";
     RecoverPanic := true; Profiler := false |}.

Definition statusText : gmap nat string :=
  <[200 := "OK"]> (<[404 := "Not Found"]> (<[500 := "Internal Server Error"]> ∅)).

(** [func(ctx *Context) string { ctx.Abort(401, "no"); return "body" }] *)
Definition abortAndReturn : Handler :=
  FuncValue {| In := [TPtr contextType]; IsVariadic := false |}
    (λ _, Abort 401 "no" ;; ret [ValueOf TString "body"]).

(** The surroundings of [noFiles] with one file,
    [/srv/static/docs/index.htm]. *)
Definition withIndex : Surroundings :=
  {| Stat := λ name,
       if bool_decide (name = "/srv/static/docs/index.htm") then Some false else None;
     Join := join;
     defaultStaticDirs := ["/srv/app/static"; "/srv/static"];
     now := "Mon, 02 Jan 2006 15:04:05 UTC";
     Callers := [];
     writeError := λ _, None |}.

Definition boom : route := mkRoute "GET" "/boom" crash.

Definition guarded : route := mkRoute "GET" "/secret" abortAndReturn.

(** A server with the configuration of the package and three routes. *)
Definition threeRoutes : Server :=
  {| Config := Config_; routes := [boom; hello; posted]; Logger := [] |}.

(** [Server{}] with one route added. *)
Definition bare : ServerStruct :=
  {| Config_ptr := None; routes_ := [boom]; Logger_ptr := None |}.

Definition lang : Cookie :=
  {| Cookie_Name := "lang"; Cookie_Value := "en"; Cookie_Expires := 0 |}.

Definition forged : Cookie :=
  {| Cookie_Name := "user"; Cookie_Value := "YWxpY2U=|1700000000|00"; Cookie_Expires := 0 |}.

Definition unsigned : Cookie :=
  {| Cookie_Name := "user"; Cookie_Value := "alice"; Cookie_Expires := 0 |}.

(** A handler's use of the writer: a header, a body, and then a status
    and a header that come too late. *)
Definition early : list ConnOp := [OpHeader (<["Content-Type" := ["text/plain"]]>)].

Definition late : list ConnOp :=
  [OpWriteHeader 404; OpHeader (<["X-Late" := ["1"]]>); OpWrite "!"].

End Example2.

(** * Properties *)

(** ** Slices of a string *)

Lemma substring_length_le (s : string) (n m : nat) :
  (String.length (substring n m s) ≤ String.length s)%nat.
Proof.
  revert n m. induction s as [|c s IH]; intros [|n] [|m]; simpl; try lia.
  - specialize (IH 0 m). lia.
  - specialize (IH n 0). lia.
  - specialize (IH n (S m)). lia.
Qed.

Lemma substring_whole (s : string) (n m : nat) :
  String.length (substring n m s) = String.length s → substring n m s = s.
Proof.
  revert n m. induction s as [|c s IH]; intros n m.
  - by destruct n, m.
  - destruct n as [|n]; simpl.
    + destruct m as [|m]; simpl; [lia|]. intros Hlen. f_equal. apply IH. lia.
    + intros Hlen. pose proof (substring_length_le s n m). lia.
Qed.

(** A slice as long as the string is the string. *)
Lemma slice_whole (s : string) (lo hi : nat) :
  String.length (slice s lo hi) = String.length s ↔ slice s lo hi = s.
Proof.
  split; [apply substring_whole|]. by intros ->.
Qed.

(** ** The small regexp library: a match lies within the text *)

Section mini_regexp.
Import MiniRegexp.

Lemma starLoop_forward {R} (step : _ → _ → _ → _ → option R) (n : nat) :
  forward step → forward (λ s pos cs k, starLoop step k n s pos cs).
Proof.
  intros Hstep. induction n as [|n IHn]; intros s pos cs k x Hrun; simpl in Hrun.
  - eauto 10.
  - destruct (step s pos cs _) eqn:Ha; [|eauto 10].
    injection Hrun as ->.
    apply Hstep in Ha as (s1 & pos1 & cs1 & Hloop & ? & ?).
    case_bool_decide; [done|].
    apply IHn in Hloop as (s2 & pos2 & cs2 & Hk & ? & ?).
    eexists _, _, _. split; [done|]. lia.
Qed.

Lemma run_forward {R} (e : re) : forward (@run R e).
Proof.
  induction e as [| c | | | | a IHa b IHb | a IHa b IHb | a IHa | i a IHa];
    intros s pos cs k x Hrun.
  - simpl in Hrun. eauto 10.
  - simpl in Hrun. destruct s as [|c' s']; [done|]. case_bool_decide; [|done].
    eexists _, _, _. split; [done|]. simpl. lia.
  - simpl in Hrun. destruct s as [|c' s']; [done|]. case_bool_decide; [done|].
    eexists _, _, _. split; [done|]. simpl. lia.
  - simpl in Hrun. case_bool_decide; [|done]. eauto 10.
  - simpl in Hrun. destruct s; [|done]. eauto 10.
  - simpl in Hrun. apply IHa in Hrun as (s1 & pos1 & cs1 & Hb & ? & ?).
    apply IHb in Hb as (s2 & pos2 & cs2 & Hk & ? & ?).
    eexists _, _, _. split; [done|]. lia.
  - simpl in Hrun. destruct (run a s pos cs k) eqn:Ha.
    + injection Hrun as ->. by apply IHa in Ha.
    + by apply IHb in Hrun.
  - change (starLoop (run a) k (S (length s)) s pos cs = Some x) in Hrun.
    by apply (starLoop_forward (run a) _ IHa) in Hrun.
  - simpl in Hrun. apply IHa in Hrun as (s1 & pos1 & cs1 & Hk & ? & ?). eauto 10.
Qed.

Lemma search_bounds (e : re) (ncap : nat) (s : list ascii) (start lo hi : nat) cs :
  search e ncap s start = Some ((lo, hi), cs) →
  (start ≤ lo ∧ lo ≤ hi ∧ hi ≤ start + length s)%nat.
Proof.
  revert start. induction s as [|c s IH]; intros start; simpl.
  - destruct (run _ _ _ _ _) eqn:Hrun; [|done]. intros [= ->].
    apply run_forward in Hrun as (s' & pos' & cs' & [= <- <- _] & ? & ?). simpl in *. lia.
  - destruct (run _ _ _ _ _) eqn:Hrun.
    + intros [= ->].
      apply run_forward in Hrun as (s' & pos' & cs' & [= <- <- _] & ? & ?). simpl in *. lia.
    + intros Hs%IH. lia.
Qed.

Lemma length_list_ascii_of_string (s : string) :
  length (list_ascii_of_string s) = String.length s.
Proof. induction s; simpl; congruence. Qed.

(** The bounds the library reports are those of a slice of the text, so
    that [slice] is Go's [s[lo:hi]] on them. *)
Lemma execute_bounds p (s : string) lo hi groups :
  @doExecute lib p s = Some ((lo, hi), groups) → (lo ≤ hi ∧ hi ≤ String.length s)%nat.
Proof.
  intros Hs%search_bounds. rewrite length_list_ascii_of_string in Hs. lia.
Qed.

End mini_regexp.

Section properties.
Context `{RegexpLib, Surroundings}.

Implicit Types (s : Server) (req : Request) (ctx : Context) (σ : State).

(** ** The regexp interface *)

Lemma FindStringSubmatch_nil re (p : string) :
  FindStringSubmatch re p = [] ↔ MatchString re p = false.
Proof.
  unfold FindStringSubmatch, MatchString.
  destruct (doExecute re p) as [[[lo hi] groups]|]; naive_solver.
Qed.

Lemma FindStringSubmatch_whole re (p whole : string) captures :
  FindStringSubmatch re p = whole :: captures →
  MatchString re p = true ∧ ∃ lo hi, whole = slice p lo hi.
Proof.
  unfold FindStringSubmatch, MatchString.
  destruct (doExecute re p) as [[[lo hi] groups]|]; [|done].
  intros [= <- _]. eauto.
Qed.

(** The test of line 433 on the lengths decides whether the match is the
    whole path. *)
Lemma whole_match_length re (p whole : string) captures :
  FindStringSubmatch re p = whole :: captures →
  String.length whole = String.length p ↔ whole = p.
Proof.
  intros (_ & lo & hi & ->)%FindStringSubmatch_whole. apply slice_whole.
Qed.

(** ** The loop and the Matcher *)

Lemma methodSkips_false req route :
  methodSkips req route = false ↔ methodCondition req route.
Proof.
  unfold methodSkips, methodCondition.
  rewrite andb_false_iff, negb_false_iff, andb_true_iff.
  rewrite !bool_decide_eq_true, bool_decide_eq_false.
  destruct (decide (Method req = method route)); intuition congruence.
Qed.

Lemma routeLoop_skip s req ctx route rest :
  accepts req route = None →
  routeLoop s req ctx (route :: rest) = routeLoop s req ctx rest.
Proof.
  unfold accepts. intros Hacc. simpl.
  destruct (methodSkips req route) eqn:Hskip; [done|].
  apply methodSkips_false in Hskip. rewrite decide_True in Hacc by done.
  destruct (FindStringSubmatch (cr route) (Path req)) as [|whole captures] eqn:Hfind.
  - apply FindStringSubmatch_nil in Hfind. by rewrite Hfind.
  - pose proof (whole_match_length _ _ _ _ Hfind) as Hlen.
    apply FindStringSubmatch_whole in Hfind as [-> _]. simpl.
    case_decide; [done|]. rewrite bool_decide_true; [done|]. by rewrite Hlen.
Qed.

Lemma routeLoop_hit s req ctx route rest captures :
  accepts req route = Some captures →
  routeLoop s req ctx (route :: rest)
  = (invokeRoute s ctx route (Path req :: captures) ;; ret true).
Proof.
  unfold accepts. intros Hacc. simpl.
  case_decide as Hcond; [|done].
  apply methodSkips_false in Hcond. rewrite Hcond.
  destruct (FindStringSubmatch (cr route) (Path req)) as [|whole captures'] eqn:Hfind; [done|].
  case_decide as Hwhole; [|done]. injection Hacc as ->. subst whole.
  apply FindStringSubmatch_whole in Hfind as [-> _]. simpl.
  by rewrite bool_decide_false by naive_solver.
Qed.

(** The loop is the Matcher of the specification followed by the call of
    the route it finds. *)
Lemma routeLoop_Matcher s req ctx rs :
  routeLoop s req ctx rs
  = match Matcher req rs with
    | Some (route, captures) => invokeRoute s ctx route (Path req :: captures) ;; ret true
    | None => ret false
    end.
Proof.
  induction rs as [|route rest IH]; [done|].
  cbn [Matcher]. destruct (accepts req route) as [captures|] eqn:Hacc.
  - by apply routeLoop_hit.
  - rewrite <- IH. by apply routeLoop_skip.
Qed.

Lemma Matcher_first req pre route post captures :
  Forall (λ route', accepts req route' = None) pre →
  accepts req route = Some captures →
  Matcher req (pre ++ route :: post) = Some (route, captures).
Proof.
  intros Hpre Hacc. induction Hpre as [|route' pre Hnone _ IH]; simpl.
  - by rewrite Hacc.
  - by rewrite Hnone.
Qed.

(** C1: with the method matching, a route is let through exactly when
    the leftmost match of its pattern is the entire path.  The text the
    pattern matched is a slice of the path, so its length is the length
    of the path only if it is the whole path; when the lengths differ (a
    strict prefix, suffix or inner part was matched) the route is skipped
    and the scan goes on with the routes after it; when they agree the
    route is called with the captures. *)
Theorem C1_full_path_match s req ctx route rest (whole : string) captures :
  methodCondition req route →
  FindStringSubmatch (cr route) (Path req) = whole :: captures →
  (∃ lo hi, whole = slice (Path req) lo hi) ∧
  (String.length whole = String.length (Path req) ↔ whole = Path req) ∧
  (String.length whole ≠ String.length (Path req) →
     accepts req route = None ∧
     routeLoop s req ctx (route :: rest) = routeLoop s req ctx rest) ∧
  (String.length whole = String.length (Path req) →
     accepts req route = Some captures ∧
     routeLoop s req ctx (route :: rest)
     = (invokeRoute s ctx route (whole :: captures) ;; ret true)).
Proof.
  intros Hcond Hfind.
  pose proof (whole_match_length _ _ _ _ Hfind) as Hlen.
  split; [by apply FindStringSubmatch_whole in Hfind as [_ ?]|].
  split; [done|]. split.
  - intros Hne.
    assert (accepts req route = None) as Hacc.
    { unfold accepts. rewrite decide_True, Hfind by done.
      rewrite decide_False; [done|]. by rewrite <- Hlen. }
    split; [done|]. by apply routeLoop_skip.
  - intros Heq. apply Hlen in Heq as Hw.
    assert (accepts req route = Some captures) as Hacc.
    { unfold accepts. rewrite decide_True, Hfind by done. by rewrite decide_True. }
    split; [done|]. rewrite Hw. by apply routeLoop_hit.
Qed.

Lemma Matcher_cut req pre route post captures :
  accepts req route = Some captures →
  Matcher req (pre ++ route :: post) = Matcher req (pre ++ [route]).
Proof.
  intros Hacc. induction pre as [|route' pre IH]; simpl.
  - by rewrite Hacc.
  - by rewrite IH.
Qed.

(** C2: the routes are scanned in the order of registration and the
    first one that satisfies both conditions is called.  With R1 before
    R2 and both satisfying them, R2 and the routes around it have no part
    in the outcome, which is that of the table cut after R1; and when no
    route before R1 satisfies the conditions the request goes to the
    handler of R1, however specific the pattern of R2 is. *)
Theorem C2_first_route_wins s req ctx pre R1 mid R2 post captures1 captures2 :
  accepts req R1 = Some captures1 →
  accepts req R2 = Some captures2 →
  routeLoop s req ctx (pre ++ R1 :: mid ++ R2 :: post) = routeLoop s req ctx (pre ++ [R1]) ∧
  (Forall (λ route, accepts req route = None) pre →
     Matcher req (pre ++ R1 :: mid ++ R2 :: post) = Some (R1, captures1) ∧
     routeLoop s req ctx (pre ++ R1 :: mid ++ R2 :: post)
     = (invokeRoute s ctx R1 (Path req :: captures1) ;; ret true)).
Proof.
  intros Hacc1 _. split.
  - by rewrite !routeLoop_Matcher, (Matcher_cut _ _ _ _ _ Hacc1).
  - intros Hpre.
    pose proof (Matcher_first req pre R1 (mid ++ R2 :: post) captures1 Hpre Hacc1) as HM.
    split; [done|]. by rewrite routeLoop_Matcher, HM.
Qed.

(** C3: the method condition of a route holds exactly when the method of
    the request is the method of the route, or the request is a HEAD and
    the route is for GET; a HEAD request passes the test of a GET route,
    a GET request is skipped by a HEAD route, and a route whose condition
    fails is skipped by the loop. *)
Theorem C3_method_condition s req ctx route rest :
  (methodSkips req route = false
     ↔ Method req = method route ∨ (Method req = "HEAD" ∧ method route = "GET")) ∧
  (Method req = "HEAD" → method route = "GET" → methodSkips req route = false) ∧
  (Method req = "GET" → method route = "HEAD" → methodSkips req route = true) ∧
  (methodSkips req route = true →
     routeLoop s req ctx (route :: rest) = routeLoop s req ctx rest).
Proof.
  split; [apply methodSkips_false|]. split; [|split].
  - intros ??. apply methodSkips_false. by right.
  - intros Hreq Hroute. unfold methodSkips. rewrite Hreq, Hroute. done.
  - intros Hskip. simpl. by rewrite Hskip.
Qed.

(** ** The call of a route *)

Lemma requiresContext_spec ft σ :
  ∃ withCtx : bool,
    requiresContext (FuncOf ft) σ = Done withCtx σ ∧
    (withCtx = true ↔ firstParamIsContextPtr ft).
Proof.
  unfold requiresContext, firstParamIsContextPtr.
  destruct (In ft) as [|a0 more].
  { exists false. split; [done|]. split; [done|]. by intros (? & ? & ? & _). }
  case_bool_decide as Hkind.
  { exists false. split; [done|]. split; [done|]. intros (? & ? & [= <- _] & ? & _). done. }
  case_bool_decide as Helem.
  - exists true. split; [done|]. split; [|done]. intros _. exists a0, more.
    split; [done|]. split; [|done]. by destruct (decide (kindOf a0 = Ptr)).
  - exists false. split; [done|]. split; [done|]. intros (? & ? & [= <- _] & _ & ?). done.
Qed.

Lemma invokeRoute_returned s ctx route match_ args σ σ0 rets σ1 :
  bindArgs ctx (handler route) match_ σ = Done args σ0 →
  Call (handler route) args σ0 = Done rets σ1 →
  invokeRoute s ctx route match_ σ = writeReturn rets σ1.
Proof.
  intros Hargs Hcall. unfold invokeRoute, bind, safelyCall.
  by rewrite Hargs, Hcall.
Qed.

Lemma logCallers_printed frames σ :
  logCallers frames σ = Done () (printed (map (λ fl, LogFrame fl.1 fl.2) frames) σ).
Proof.
  revert σ. induction frames as [|[file line] more IH]; intros σ; simpl.
  - unfold ret, printed. destruct σ. simpl. by rewrite app_nil_r.
  - unfold bind, log. rewrite IH. unfold printed. simpl. by rewrite <- app_assoc.
Qed.

Lemma safelyCall_recovers s function args σ err σ' :
  Call function args σ = Panicked err σ' →
  RecoverPanic (Config s) = true →
  safelyCall s function args σ
  = Done ([], Some err)
      (printed (LogHandlerCrashed err :: map (λ fl, LogFrame fl.1 fl.2) Callers) σ').
Proof.
  intros Hcall Hrec. unfold safelyCall. rewrite Hcall, Hrec. simpl.
  unfold bind, log. rewrite logCallers_printed. unfold ret, printed. simpl.
  by rewrite <- app_assoc.
Qed.

Lemma writeReturn_written sval more σ (content : bytes) :
  (bool_decide (Value_Kind sval = String_) = true ∧ content = Value_String sval)
  ∨ (bool_decide (Value_Kind sval = String_) = false
     ∧ sval = ValueOf (TSlice TUint8) content)
  ∨ (bool_decide (Value_Kind sval = String_) = false
     ∧ bool_decide (Value_Kind sval = Slice)
       && bool_decide (kindOf (Elem (Value_Type sval)) = Uint8) = false
     ∧ content = "") →
  ∃ σ', writeReturn (sval :: more) σ = Done () σ' ∧
        w σ' = {| Header := <["Content-Length" := [Itoa (String.length content)]]> (Header (w σ));
                  calls := calls (w σ) ++ [Write content] |}.
Proof.
  intros Hcase.
  assert ((if bool_decide (Value_Kind sval = String_) then
             ret (bytes_of_string (Value_String sval))
           else if bool_decide (Value_Kind sval = Slice)
                   && bool_decide (kindOf (Elem (Value_Type sval)) = Uint8) then
             Value_assert_bytes sval
           else ret "") = ret content) as Hcontent.
  { destruct Hcase as [[-> ->]|[[-> ->]|(-> & -> & ->)]]; done. }
  unfold writeReturn. rewrite Hcontent. unfold bind, ret, SetHeader, Header_Set, call_w.
  destruct (writeError content); eexists; (split; [reflexivity|done]).
Qed.

(** C4: for a handler that is a function, the context is the first
    argument exactly when the first declared parameter is of pointer
    kind with the context type as its element (so not for a function
    without parameters, with a first parameter that is no pointer, or
    with a pointer to another type); after it come the capture groups,
    without the whole match, in their order, each as a value of type
    string. *)
Theorem C4_argument_list s ctx route ft body (whole : string) captures σ :
  handler route = FuncValue ft body →
  ∃ withCtx : bool,
    (withCtx = true ↔ firstParamIsContextPtr ft) ∧
    (In ft = [] → withCtx = false) ∧
    (∀ a0 more, In ft = a0 :: more → kindOf a0 ≠ Ptr → withCtx = false) ∧
    (∀ a0 more, In ft = a0 :: more → Elem a0 ≠ contextType → withCtx = false) ∧
    requiresContext (FuncOf ft) σ = Done withCtx σ ∧
    let args := (if withCtx then [ValueOfCtx ctx] else [])
                ++ map (λ arg, ValueOf TString arg) captures in
    bindArgs ctx (handler route) (whole :: captures) σ = Done args σ ∧
    invokeRoute s ctx route (whole :: captures) σ
    = (called <- safelyCall s (handler route) args ;;
       (match called.2 with Some _ => Abort 500 "Server Error" | None => ret () end) ;;
       writeReturn called.1) σ.
Proof.
  intros Hh. destruct (requiresContext_spec ft σ) as (withCtx & Hreq & Hiff).
  exists withCtx. split; [done|].
  assert (∀ P : Prop, (firstParamIsContextPtr ft → ¬ P) → P → withCtx = false) as Hnot.
  { intros P HP HPt. destruct withCtx; [|done]. destruct (HP (proj1 Hiff eq_refl) HPt). }
  split; [|split; [|split; [|split; [done|]]]].
  - intros Hin. destruct withCtx; [|done].
    destruct (proj1 Hiff eq_refl) as (? & ? & Hin' & _). congruence.
  - intros a0 more Hin Hkind. destruct withCtx; [|done].
    destruct (proj1 Hiff eq_refl) as (? & ? & Hin' & ? & _). congruence.
  - intros a0 more Hin Helem. destruct withCtx; [|done].
    destruct (proj1 Hiff eq_refl) as (? & ? & Hin' & _ & ?). congruence.
  - assert (bindArgs ctx (handler route) (whole :: captures) σ
            = Done ((if withCtx then [ValueOfCtx ctx] else [])
                    ++ map (λ arg, ValueOf TString arg) captures) σ) as Hbind.
    { unfold bindArgs, bind. rewrite Hh. cbn [Handler_Type]. unfold ret at 1.
      by rewrite Hreq. }
    simpl. split; [done|].
    unfold invokeRoute, bind at 1. rewrite Hbind. unfold bind.
    destruct (safelyCall _ _ _ σ) as [[ret_ err] σ'|]; done.
Qed.

(** C5: when the pattern does not compile, [addRoute] leaves the routes
    and the configuration as they were and only logs the failure; when
    it compiles, the routes are the former ones followed by the one new
    route, whatever routes there were already and whatever the handler
    is, and nothing is logged.  [addRoute] returns in both cases. *)
Theorem C5_addRoute s (r : string) (method : string) (handler : HandlerArg) :
  Config (addRoute s r method handler) = Config s ∧
  match Compile r with
  | None =>
      routes (addRoute s r method handler) = routes s ∧
      Logger (addRoute s r method handler) = Logger s ++ [LogRouteRegex r]
  | Some cr =>
      let fv := match handler with AsReflectValue fv => fv | AsInterface fv => fv end in
      routes (addRoute s r method handler)
      = routes s ++ [{| r := r; cr := cr; method := method; handler := fv |}] ∧
      length (routes (addRoute s r method handler)) = S (length (routes s)) ∧
      (∀ i route, routes s !! i = Some route →
                  routes (addRoute s r method handler) !! i = Some route) ∧
      Logger (addRoute s r method handler) = Logger s
  end.
Proof.
  unfold addRoute. destruct (Compile r) as [cr|]; [|done].
  destruct handler as [fv|fv]; simpl.
  all: split; [done|]; split; [done|]; split; [|split; [|done]].
  all: try (rewrite length_app; simpl; lia).
  all: intros i route Hi; by apply lookup_app_l_Some.
Qed.

(** C6: when the call of the handler panics, whether in its body or in
    the checks of the arguments, then with [RecoverPanic] set [safelyCall]
    returns no values and the fault, having logged it with the frames of
    the stack; the dispatcher then aborts with status 500 and the body
    Server Error and returns from the loop, so that the call is made once
    and the routes after this one are not tried.  With [RecoverPanic]
    unset the panic leaves [safelyCall], and the dispatcher, as it
    is. *)
Theorem C6_fault s req ctx route rest captures args σ err σ' :
  accepts req route = Some captures →
  bindArgs ctx (handler route) (Path req :: captures) σ = Done args σ →
  Call (handler route) args σ = Panicked err σ' →
  if RecoverPanic (Config s) then
    let σ'' := printed (LogHandlerCrashed err :: map (λ fl, LogFrame fl.1 fl.2) Callers) σ' in
    safelyCall s (handler route) args σ = Done ([], Some err) σ'' ∧
    invokeRoute s ctx route (Path req :: captures) σ
    = Done () (wrote [WriteHeader 500; Write "Server Error"] σ'') ∧
    routeLoop s req ctx (route :: rest) σ
    = Done true (wrote [WriteHeader 500; Write "Server Error"] σ'')
  else
    safelyCall s (handler route) args σ = Panicked err σ' ∧
    invokeRoute s ctx route (Path req :: captures) σ = Panicked err σ' ∧
    routeLoop s req ctx (route :: rest) σ = Panicked err σ'.
Proof.
  intros Hacc Hargs Hcall. rewrite (routeLoop_hit _ _ _ _ _ _ Hacc).
  destruct (RecoverPanic (Config s)) eqn:Hrec.
  - pose proof (safelyCall_recovers s _ _ _ _ _ Hcall Hrec) as Hsafe.
    cbn zeta. split; [done|].
    assert (invokeRoute s ctx route (Path req :: captures) σ
            = Done () (wrote [WriteHeader 500; Write "Server Error"]
                         (printed (LogHandlerCrashed err
                                   :: map (λ fl, LogFrame fl.1 fl.2) Callers) σ'))) as Hinv.
    { unfold invokeRoute, bind at 1. rewrite Hargs. unfold bind at 1. rewrite Hsafe.
      unfold bind, Abort, bind, call_w, writeReturn, ret, wrote. simpl.
      by rewrite <- app_assoc. }
    split; [done|]. unfold bind. by rewrite Hinv.
  - assert (safelyCall s (handler route) args σ = Panicked err σ') as Hsafe.
    { unfold safelyCall. by rewrite Hcall, Hrec. }
    split; [done|].
    assert (invokeRoute s ctx route (Path req :: captures) σ = Panicked err σ') as Hinv.
    { unfold invokeRoute, bind at 1. rewrite Hargs. unfold bind at 1. by rewrite Hsafe. }
    split; [done|]. unfold bind. by rewrite Hinv.
Qed.

(** When the first value the handler returns is of kind String, the
    dispatcher sets Content-Length to the decimal length in bytes of its
    text and writes those bytes; when it is of the type [[]byte] it does
    the same with the bytes of the slice.  Nothing else is done to the
    writer after the handler. *)
Lemma invokeRoute_text_and_bytes s ctx route match_ args σ sval more σ1 :
  bindArgs ctx (handler route) match_ σ = Done args σ →
  Call (handler route) args σ = Done (sval :: more) σ1 →
  (Value_Kind sval = String_ →
     ∃ σ2, invokeRoute s ctx route match_ σ = Done () σ2 ∧
           w σ2 = {| Header := <["Content-Length" := [Itoa (String.length (Value_String sval))]]>
                                 (Header (w σ1));
                     calls := calls (w σ1) ++ [Write (bytes_of_string (Value_String sval))] |}) ∧
  (∀ data : bytes, sval = ValueOf (TSlice TUint8) data →
     ∃ σ2, invokeRoute s ctx route match_ σ = Done () σ2 ∧
           w σ2 = {| Header := <["Content-Length" := [Itoa (String.length data)]]> (Header (w σ1));
                     calls := calls (w σ1) ++ [Write data] |}).
Proof.
  intros Hargs Hcall. rewrite (invokeRoute_returned _ _ _ _ _ _ _ _ _ Hargs Hcall).
  split.
  - intros Hkind. apply writeReturn_written. left. by rewrite bool_decide_true.
  - intros data ->. apply writeReturn_written. right. left. done.
Qed.

(** A first value of a defined type over a slice of bytes passes the two
    kind tests of line 467 and fails the assertion of line 468. *)
Lemma invokeRoute_defined_bytes_panics s ctx route match_ args σ (name : string) elem data more σ1 :
  kindOf elem = Uint8 →
  bindArgs ctx (handler route) match_ σ = Done args σ →
  Call (handler route) args σ = Done (ValueOf (TDefined name (TSlice elem)) data :: more) σ1 →
  invokeRoute s ctx route match_ σ
  = Panicked ("interface conversion: interface {} is " +:+ name +:+ ", not []uint8") σ1.
Proof.
  intros Helem Hargs Hcall. rewrite (invokeRoute_returned _ _ _ _ _ _ _ _ _ Hargs Hcall).
  unfold writeReturn, bind, Value_Kind. simpl.
  change (Elem (TDefined name (TSlice elem))) with elem.
  by rewrite bool_decide_true.
Qed.

(** C8: when the handler returns no value the dispatcher leaves the
    writer as the handler left it: no header is set and nothing is
    written.  When the first value is neither of kind String nor a slice
    with elements of kind Uint8, the dispatcher returns without a panic,
    having set Content-Length to 0 and written the empty payload. *)
Theorem C8_no_value_or_other s ctx route match_ args σ rets σ1 :
  bindArgs ctx (handler route) match_ σ = Done args σ →
  Call (handler route) args σ = Done rets σ1 →
  (rets = [] → invokeRoute s ctx route match_ σ = Done () σ1) ∧
  (∀ sval more, rets = sval :: more →
     Value_Kind sval ≠ String_ →
     ¬ (Value_Kind sval = Slice ∧ kindOf (Elem (Value_Type sval)) = Uint8) →
     ∃ σ2, invokeRoute s ctx route match_ σ = Done () σ2 ∧
           w σ2 = {| Header := <["Content-Length" := ["0"]]> (Header (w σ1));
                     calls := calls (w σ1) ++ [Write ""] |}).
Proof.
  intros Hargs Hcall. rewrite (invokeRoute_returned _ _ _ _ _ _ _ _ _ Hargs Hcall).
  split; [by intros ->|].
  intros sval more -> Hstr Hslice.
  apply (writeReturn_written sval more σ1 ""). right. right.
  split; [by rewrite bool_decide_false|]. split; [|done].
  apply andb_false_iff. rewrite !bool_decide_eq_false. 
  destruct (decide (Value_Kind sval = Slice)); [right|left]; naive_solver.
Qed.

(** ** Static files and the end of [routeHandler] *)

Lemma tryStaticDirs_find dirs (name : string) σ :
  tryStaticDirs dirs name σ
  = match List.find fileExists (map (λ dir, Join dir name) dirs) with
    | Some file => Done true (wrote [ServeFile file] σ)
    | None => Done false σ
    end.
Proof.
  induction dirs as [|dir more IH]; [done|]. simpl.
  destruct (fileExists (Join dir name)); [done|]. apply IH.
Qed.

Lemma tryServingFile_staticFileFor s (name : string) σ :
  tryServingFile s name σ
  = match staticFileFor s name with
    | Some file => Done true (wrote [ServeFile file] σ)
    | None => Done false σ
    end.
Proof.
  unfold tryServingFile, staticFileFor. case_bool_decide.
  - by destruct (fileExists _).
  - apply tryStaticDirs_find.
Qed.

Lemma Matcher_None req rs :
  Matcher req rs = None ↔ Forall (λ route, accepts req route = None) rs.
Proof.
  induction rs as [|route rest IH]; simpl.
  - split; [constructor|done].
  - rewrite Forall_cons. destruct (accepts req route) as [captures|].
    + split; [done|]. by intros [? _].
    + rewrite IH. tauto.
Qed.

(** C9: when no route satisfies both conditions and, for a GET or a HEAD,
    the resolver finds no file for the path nor for index.html and
    index.htm under it, [routeHandler] returns after the abort with
    status 404 and the body Page not found, and these are the only calls
    on the writer.  For any other method no file is looked for. *)
Theorem C9_not_found s req σ :
  Forall (λ route, accepts req route = None) (routes s) →
  (Method req = "GET" ∨ Method req = "HEAD" →
     staticFileFor s (Path req) = None ∧
     staticFileFor s (Join (Path req) "index.html") = None ∧
     staticFileFor s (Join (Path req) "index.htm") = None) →
  routeHandler s req σ
  = Done ()
      (wrote [WriteHeader 404; Write "Page not found"]
         (header_set "Content-Type" "text/html; charset=utf-8"
            (header_set "Date" (webTime now)
               (header_set "Server" "web.go"
                  (printed [LogRequest (Method req) (Path req)
                              (if bool_decide (0 < size (Form req))%nat
                               then Some (fst <$> Form req) else None)] σ))))).
Proof.
  intros Hroutes%Matcher_None Hfiles.
  unfold routeHandler, bind at 1, log. unfold bind at 1, SetHeader, Header_Set.
  unfold bind at 1. unfold bind at 1.
  destruct (bool_decide (Method req = "GET") || bool_decide (Method req = "HEAD")) eqn:Hm.
  - apply orb_true_iff in Hm. rewrite !bool_decide_eq_true in Hm.
    destruct (Hfiles Hm) as (Hf1 & Hf2 & Hf3).
    rewrite tryServingFile_staticFileFor, Hf1.
    unfold bind at 1. unfold bind at 1.
    rewrite routeLoop_Matcher, Hroutes. unfold ret at 1.
    unfold bind at 1. unfold bind at 1.
    rewrite tryServingFile_staticFileFor, Hf2.
    rewrite tryServingFile_staticFileFor, Hf3.
    unfold Abort, bind, call_w, wrote. simpl. by rewrite <- app_assoc.
  - unfold ret at 1. unfold bind at 1. unfold bind at 1.
    rewrite routeLoop_Matcher, Hroutes. unfold ret at 1.
    unfold bind at 1. unfold ret at 1.
    unfold Abort, bind, call_w, wrote. simpl. by rewrite <- app_assoc.
Qed.

(** C10: when the handler returns several values, the dispatcher does
    with the first what it does when that value is returned alone; the
    values after it change neither what is written, nor the headers, nor
    how the call ends. *)
Theorem C10_first_value_only s req ctx route rest captures args σ sval more σ1 :
  accepts req route = Some captures →
  bindArgs ctx (handler route) (Path req :: captures) σ = Done args σ →
  Call (handler route) args σ = Done (sval :: more) σ1 →
  writeReturn (sval :: more) = writeReturn [sval] ∧
  invokeRoute s ctx route (Path req :: captures) σ = writeReturn [sval] σ1 ∧
  routeLoop s req ctx (route :: rest) σ = (writeReturn [sval] ;; ret true) σ1.
Proof.
  intros Hacc Hargs Hcall. split; [done|].
  pose proof (invokeRoute_returned s _ _ _ _ _ _ _ _ Hargs Hcall) as Hinv.
  split; [done|].
  rewrite (routeLoop_hit _ _ _ _ _ _ Hacc). unfold bind. by rewrite Hinv.
Qed.

End properties.

(** * The properties on the example server *)

Module Concrete.
Import MiniRegexp Example.

Lemma C1_full_path_match_witness :
  routeLoop emptyServer (request "GET" "/hello/world") (context (request "GET" "/hello/world"))
    [hello; page]
  = (invokeRoute emptyServer (context (request "GET" "/hello/world")) hello
       ["/hello/world"; "world"] ;; ret true).
Proof.
  destruct (C1_full_path_match emptyServer (request "GET" "/hello/world")
              (context (request "GET" "/hello/world")) hello [page]
              "/hello/world" ["world"]) as (_ & _ & _ & Hcall).
  - left. reflexivity.
  - vm_compute. reflexivity.
  - apply Hcall. reflexivity.
Defined.

Lemma C2_first_route_wins_witness :
  routeLoop emptyServer (request "GET" "/specific") (context (request "GET" "/specific"))
    [posted; catchAll; page]
  = (invokeRoute emptyServer (context (request "GET" "/specific")) catchAll
       ["/specific"; "specific"] ;; ret true).
Proof.
  assert (accepts (request "GET" "/specific") catchAll = Some ["specific"]) as H1
    by (vm_compute; reflexivity).
  assert (accepts (request "GET" "/specific") page = Some []) as H2
    by (vm_compute; reflexivity).
  assert (Forall (λ route, accepts (request "GET" "/specific") route = None) [posted]) as Hpre
    by (repeat constructor).
  exact (proj2 (proj2 (C2_first_route_wins emptyServer (request "GET" "/specific")
                         (context (request "GET" "/specific")) [posted] catchAll [] page []
                         ["specific"] [] H1 H2) Hpre)).
Defined.

Lemma C3_method_condition_witness :
  methodSkips (request "HEAD" "/specific") page = false ∧
  methodSkips (request "GET" "/specific") (mkRoute "HEAD" "/specific" specific) = true.
Proof.
  split.
  - apply (C3_method_condition emptyServer (request "HEAD" "/specific")
             (context (request "HEAD" "/specific")) page []); reflexivity.
  - apply (C3_method_condition emptyServer (request "GET" "/specific")
             (context (request "GET" "/specific"))
             (mkRoute "HEAD" "/specific" specific) []); reflexivity.
Defined.

Lemma C4_argument_list_witness :
  bindArgs (context (request "GET" "/greet/bob")) greet ["/greet/bob"; "bob"] σ0
  = Done [ValueOfCtx (context (request "GET" "/greet/bob")); ValueOf TString "bob"] σ0.
Proof.
  destruct (C4_argument_list emptyServer (context (request "GET" "/greet/bob"))
              (mkRoute "GET" "/greet/(.*)" greet)
              {| In := [TPtr contextType; TString]; IsVariadic := false |}
              (λ args, match args with
                       | [ValueOfCtx _; ValueOf _ name] => call_w (Write ("hi " +:+ name)) ;; ret []
                       | _ => ret []
                       end)
              "/greet/bob" ["bob"] σ0 eq_refl)
    as ([|] & Hiff & _ & _ & _ & _ & Hargs & _).
  - exact Hargs.
  - assert (false = true) as Habs; [|discriminate Habs].
    apply Hiff. exists (TPtr contextType), [TString]. repeat split.
Defined.

Lemma C6_fault_witness :
  routeLoop emptyServer (request "GET" "/boom") (context (request "GET" "/boom"))
    [mkRoute "GET" "/boom" crash; catchAll] σ0
  = Done true
      (wrote [WriteHeader 500; Write "Server Error"]
         (printed [LogHandlerCrashed "boom"; LogFrame "server.go" 306; LogFrame "server.go" 449]
            σ0)).
Proof.
  refine (proj2 (proj2 (C6_fault emptyServer (request "GET" "/boom")
                          (context (request "GET" "/boom"))
                          (mkRoute "GET" "/boom" crash) [catchAll] [] [] σ0 "boom" σ0 _ _ _))).
  - vm_compute. reflexivity.
  - reflexivity.
  - reflexivity.
Defined.

(** C7, where the code departs from it: a handler registered with [Get]
    that returns a [json.RawMessage] returns a slice of bytes, and the
    tests of line 467 take it for one; the assertion of line 468 then
    panics, outside [safelyCall] and so whatever [RecoverPanic] is, and
    the dispatcher neither sets Content-Length nor writes the bytes. *)
Theorem C7_raw_message_panics :
  let s := Get emptyServer "/raw" (AsInterface rawMessage) in
  RecoverPanic (Config s) = true ∧
  Value_Kind rawValue = Slice ∧
  kindOf (Elem (Value_Type rawValue)) = Uint8 ∧
  ∃ σ, routeHandler s (request "GET" "/raw") σ0
       = Panicked "interface conversion: interface {} is json.RawMessage, not []uint8" σ ∧
       calls (w σ) = [] ∧
       Header (w σ) !! "Content-Length" = None.
Proof.
  cbn zeta. repeat split. eexists. split; [vm_compute; reflexivity|]. split; reflexivity.
Qed.

Lemma C8_no_value_or_other_witness :
  ∃ σ2,
    invokeRoute emptyServer (context (request "GET" "/7")) (mkRoute "GET" "/7" seven) ["/7"] σ0
    = Done () σ2 ∧
    w σ2 = {| Header := <["Content-Length" := ["0"]]> ∅; calls := [Write ""] |}.
Proof.
  apply (proj2 (C8_no_value_or_other emptyServer (context (request "GET" "/7"))
                  (mkRoute "GET" "/7" seven) ["/7"] [] σ0 [ValueOf TInt "7"] σ0
                  eq_refl eq_refl)
           (ValueOf TInt "7") [] eq_refl).
  - vm_compute. discriminate.
  - vm_compute. intros [Hkind _]. discriminate Hkind.
Defined.

Lemma C9_not_found_witness :
  ∃ σ', routeHandler emptyServer (request "GET" "/missing") σ0 = Done () σ' ∧
        calls (w σ') = [WriteHeader 404; Write "Page not found"].
Proof.
  eexists. split.
  - apply (C9_not_found emptyServer (request "GET" "/missing") σ0).
    + constructor.
    + intros _. vm_compute. repeat split.
  - reflexivity.
Defined.

Lemma C10_first_value_only_witness :
  routeLoop emptyServer (request "GET" "/two") (context (request "GET" "/two"))
    [mkRoute "GET" "/two" two; catchAll] σ0
  = routeLoop emptyServer (request "GET" "/two") (context (request "GET" "/two"))
      [mkRoute "GET" "/two" two'; page] σ0.
Proof.
  destruct (C10_first_value_only emptyServer (request "GET" "/two")
              (context (request "GET" "/two")) (mkRoute "GET" "/two" two) [catchAll]
              [] [] σ0 (ValueOf TString "first") [ValueOf TInt "2"] σ0)
    as (_ & _ & ->); [vm_compute; reflexivity|reflexivity|reflexivity|].
  destruct (C10_first_value_only emptyServer (request "GET" "/two")
              (context (request "GET" "/two")) (mkRoute "GET" "/two" two') [page]
              [] [] σ0 (ValueOf TString "first") [ValueOf TString "second"] σ0)
    as (_ & _ & ->); [vm_compute; reflexivity|reflexivity|reflexivity|].
  reflexivity.
Defined.

End Concrete.

(** * The scenarios of the specification, run on the example server *)

Module Scenarios.
Import MiniRegexp Example.

(** Route [/hello/(.+)] for GET with a handler that echoes the capture:
    [GET /hello/world] is answered with [world], announced as 5 bytes. *)
Example hello_world :
  let s := Get emptyServer "/hello/(.+)" (AsInterface echo) in
  callsOf (run s "GET" "/hello/world") = inl [Write "world"] ∧
  headerOf (run s "GET" "/hello/world") "Content-Length" = Some ["5"] ∧
  headerOf (run s "GET" "/hello/world") "Content-Type" = Some ["text/html; charset=utf-8"] ∧
  headerOf (run s "GET" "/hello/world") "Server" = Some ["web.go"] ∧
  headerOf (run s "GET" "/hello/world") "Date" = Some ["Mon, 02 Jan 2006 15:04:05 GMT"].
Proof. vm_compute. repeat split. Qed.

(** The pattern that takes every path registered before [/specific]:
    [GET /specific] goes to the first, which captures [specific]. *)
Example broad_before_specific :
  let s := Get (Get emptyServer "/(.*)" (AsInterface echo)) "/specific" (AsInterface specific) in
  callsOf (run s "GET" "/specific") = inl [Write "specific"].
Proof. vm_compute. reflexivity. Qed.

(** The other order gives the page of the second handler. *)
Example specific_before_broad :
  let s := Get (Get emptyServer "/specific" (AsInterface specific)) "/(.*)" (AsInterface echo) in
  callsOf (run s "GET" "/specific") = inl [Write "page"].
Proof. vm_compute. reflexivity. Qed.

(** No routes and no static files: [GET /missing] is aborted with 404. *)
Example missing :
  callsOf (run emptyServer "GET" "/missing") = inl [WriteHeader 404; Write "Page not found"].
Proof. vm_compute. reflexivity. Qed.

(** A handler that panics, with [RecoverPanic] set: 500, and the route
    after it is not tried; the server then serves another request. *)
Example crash_then_serve :
  let s := Get (Get emptyServer "/boom" (AsInterface crash)) "/(.*)" (AsInterface echo) in
  callsOf (run s "GET" "/boom") = inl [WriteHeader 500; Write "Server Error"] ∧
  callsOf (run s "GET" "/next") = inl [Write "next"].
Proof. vm_compute. split; reflexivity. Qed.

(** With [RecoverPanic] unset the panic leaves [routeHandler]. *)
Example crash_uncontained :
  let config := {| StaticDir := ""; Addr := ""; Port := 0; CookieSecret := "";
                   RecoverPanic := false; Profiler := false |} in
  let s := Get {| Config := config; routes := []; Logger := [] |} "/boom" (AsInterface crash) in
  callsOf (run s "GET" "/boom") = inr "boom".
Proof. vm_compute. reflexivity. Qed.

(** Two captures for a handler of one parameter: the call panics in
    [reflect] and is answered with 500. *)
Example wrong_number_of_arguments :
  let s := Get emptyServer "/(a)(b)" (AsInterface echo) in
  callsOf (run s "GET" "/ab") = inl [WriteHeader 500; Write "Server Error"] ∧
  (∃ σ, run s "GET" "/ab" = Done () σ ∧
        head (drop 1 (logged σ))
        = Some (LogHandlerCrashed "reflect: Call with too many input arguments")).
Proof. vm_compute. split; [reflexivity|]. eexists. split; reflexivity. Qed.

(** A capture is passed as a string and is not converted: a handler that
    declares an [int] for it fails in the call; a variadic handler of
    [interface{}] takes any number of captures. *)
Example no_coercion :
  let s := Get emptyServer "/n/(.+)" (AsInterface wantsInt) in
  callsOf (run s "GET" "/n/42") = inl [WriteHeader 500; Write "Server Error"] ∧
  (∃ σ, run s "GET" "/n/42" = Done () σ ∧
        head (drop 1 (logged σ))
        = Some (LogHandlerCrashed "reflect: Call using string as type int")) ∧
  callsOf (run (Get emptyServer "/(a)(b)(c)" (AsInterface variadic)) "GET" "/abc")
  = inl [Write "any"].
Proof. vm_compute. split; [reflexivity|]. split; [|reflexivity]. eexists. split; reflexivity. Qed.

(** Patterns that match a strict prefix, a strict suffix or an inner part
    of the path only are passed over. *)
Example part_of_the_path_only :
  let s := Get (Get (Get emptyServer "/hello" (AsInterface specific))
                  "world" (AsInterface specific))
             "ello/w" (AsInterface specific) in
  FindStringSubmatch (MustCompile "/hello") "/hello/world" = ["/hello"] ∧
  FindStringSubmatch (MustCompile "world") "/hello/world" = ["world"] ∧
  FindStringSubmatch (MustCompile "ello/w") "/hello/world" = ["ello/w"] ∧
  callsOf (run s "GET" "/hello/world") = inl [WriteHeader 404; Write "Page not found"].
Proof. vm_compute. repeat split. Qed.

(** HEAD is served by a GET route, GET is not served by a HEAD route. *)
Example head_and_get :
  callsOf (run (Get emptyServer "/specific" (AsInterface specific)) "HEAD" "/specific")
  = inl [Write "page"] ∧
  callsOf (run (Match emptyServer "HEAD" "/specific" (AsInterface specific)) "GET" "/specific")
  = inl [WriteHeader 404; Write "Page not found"].
Proof. vm_compute. split; reflexivity. Qed.

(** A handler with the context as its first parameter and no result
    writes through the context; the dispatcher adds nothing. *)
Example context_handler :
  let s := Get emptyServer "/greet/(.*)" (AsInterface greet) in
  callsOf (run s "GET" "/greet/bob") = inl [Write "hi bob"] ∧
  headerOf (run s "GET" "/greet/bob") "Content-Length" = None.
Proof. vm_compute. split; reflexivity. Qed.

(** Two bytes for one accented letter, as a string and as a [[]byte]. *)
Example bytes_not_runes :
  String.length eacute = 2 ∧
  headerOf (run (Get emptyServer "/e" (AsInterface accented)) "GET" "/e") "Content-Length"
  = Some ["2"] ∧
  callsOf (run (Get emptyServer "/e" (AsInterface accented)) "GET" "/e") = inl [Write eacute] ∧
  headerOf (run (Get emptyServer "/e" (AsInterface rawBytes)) "GET" "/e") "Content-Length"
  = Some ["2"] ∧
  callsOf (run (Get emptyServer "/e" (AsInterface rawBytes)) "GET" "/e") = inl [Write eacute].
Proof. vm_compute. repeat split. Qed.

(** A pattern that does not compile is dropped and logged. *)
Example bad_pattern :
  Get emptyServer "/user/(.*" (AsInterface echo)
  = {| Config := Config_; routes := []; Logger := [LogRouteRegex "/user/(.*"] |}.
Proof. vm_compute. reflexivity. Qed.

(** The same pattern and method registered twice make two routes. *)
Example registered_twice :
  let s := Get (Get emptyServer "/specific" (AsInterface specific)) "/specific" (AsInterface echo) in
  routes s = [mkRoute "GET" "/specific" specific; mkRoute "GET" "/specific" echo].
Proof. vm_compute. reflexivity. Qed.

(** [addRoute] takes what is no function; the panic comes with the first
    request that reaches the route, and is not contained. *)
Example handler_that_is_no_function :
  callsOf (run (Get emptyServer "/x" (AsInterface (DataValue TString))) "GET" "/x")
  = inr "reflect: NumIn of non-func type string" ∧
  callsOf (run (Get emptyServer "/x" (AsInterface Invalid)) "GET" "/x")
  = inr "reflect: call of reflect.Value.Type on zero Value".
Proof. vm_compute. split; reflexivity. Qed.

(** A static file is served before any route is looked at. *)
Example static_file_first :
  let s := Get emptyServer "/(.*)" (AsInterface echo) in
  callsOf (@routeHandler _ oneFile s (request "GET" "/logo.png") σ0)
  = inl [ServeFile "/srv/static/logo.png"] ∧
  callsOf (@routeHandler _ oneFile s (request "GET" "/other.png") σ0)
  = inl [Write "other.png"] ∧
  callsOf (@routeHandler _ oneFile (Post emptyServer "/(.*)" (AsInterface echo))
             (request "POST" "/logo.png") σ0)
  = inl [Write "logo.png"].
Proof. vm_compute. repeat split. Qed.

End Scenarios.

(** * More of the dispatcher *)

Section dispatcher.
Context `{RegexpLib, Surroundings}.

Implicit Types (s : Server) (req : Request) (ctx : Context) (σ : State).

(** Static files come before the routes: for a GET or a HEAD whose path
    names a file the resolver finds, [routeHandler] serves the file and
    returns, having looked at no route and set no Content-Type; the table
    of routes has no part in the outcome. *)
Theorem static_file_before_routes s req σ (file : string) (rs : list route) :
  Method req = "GET" ∨ Method req = "HEAD" →
  staticFileFor s (Path req) = Some file →
  routeHandler s req σ
  = Done ()
      (wrote [ServeFile file]
         (header_set "Date" (webTime now)
            (header_set "Server" "web.go"
               (printed [LogRequest (Method req) (Path req)
                           (if bool_decide (0 < size (Form req))%nat
                            then Some (fst <$> Form req) else None)] σ)))) ∧
  routeHandler {| Config := Config s; routes := rs; Logger := Logger s |} req σ
  = routeHandler s req σ.
Proof.
  intros Hm Hfile.
  assert (∀ s', Config s' = Config s →
            routeHandler s' req σ
            = Done ()
                (wrote [ServeFile file]
                   (header_set "Date" (webTime now)
                      (header_set "Server" "web.go"
                         (printed [LogRequest (Method req) (Path req)
                                     (if bool_decide (0 < size (Form req))%nat
                                      then Some (fst <$> Form req) else None)] σ))))) as Hany.
  { intros s' Hconfig.
    unfold routeHandler, bind at 1, log. unfold bind at 1, SetHeader, Header_Set.
    unfold bind at 1. unfold bind at 1.
    assert (bool_decide (Method req = "GET") || bool_decide (Method req = "HEAD") = true) as ->.
    { apply orb_true_iff. by rewrite !bool_decide_eq_true. }
    rewrite tryServingFile_staticFileFor.
    assert (staticFileFor s' (Path req) = staticFileFor s (Path req)) as ->.
    { unfold staticFileFor. by rewrite Hconfig. }
    by rewrite Hfile. }
  split; [by apply Hany|]. by rewrite !Hany.
Qed.

(** When no route is accepted, a GET or a HEAD falls back on index.html
    under the path and, only when the resolver finds none, on index.htm;
    by then the default Content-Type is set. *)
Theorem index_html_before_index_htm s req σ (file : string) :
  Method req = "GET" ∨ Method req = "HEAD" →
  staticFileFor s (Path req) = None →
  Forall (λ route, accepts req route = None) (routes s) →
  staticFileFor s (Join (Path req) "index.html") = Some file
  ∨ (staticFileFor s (Join (Path req) "index.html") = None
     ∧ staticFileFor s (Join (Path req) "index.htm") = Some file) →
  routeHandler s req σ
  = Done ()
      (wrote [ServeFile file]
         (header_set "Content-Type" "text/html; charset=utf-8"
            (header_set "Date" (webTime now)
               (header_set "Server" "web.go"
                  (printed [LogRequest (Method req) (Path req)
                              (if bool_decide (0 < size (Form req))%nat
                               then Some (fst <$> Form req) else None)] σ))))).
Proof.
  intros Hm Hnone Hroutes%Matcher_None Hindex.
  unfold routeHandler, bind at 1, log. unfold bind at 1, SetHeader, Header_Set.
  unfold bind at 1. unfold bind at 1.
  assert (bool_decide (Method req = "GET") || bool_decide (Method req = "HEAD") = true) as ->.
  { apply orb_true_iff. by rewrite !bool_decide_eq_true. }
  rewrite tryServingFile_staticFileFor, Hnone.
  unfold bind at 1. unfold bind at 1.
  rewrite routeLoop_Matcher, Hroutes. unfold ret at 1.
  unfold bind at 1. unfold bind at 1.
  rewrite tryServingFile_staticFileFor.
  destruct Hindex as [->|[-> Hhtm]]; [done|].
  by rewrite tryServingFile_staticFileFor, Hhtm.
Qed.

(** [tryServingFile] serves one file or none and says which: it returns
    true after one [ServeFile] of a file that exists, false with nothing
    done.  With [StaticDir] set it looks there only; without, it takes
    the first of the default directories that has the file. *)
Theorem tryServingFile_one_or_none s (name : string) σ :
  (∃ file, tryServingFile s name σ = Done true (wrote [ServeFile file] σ) ∧
           fileExists file = true ∧
           if bool_decide (StaticDir (Config s) ≠ "")
           then file = Join (StaticDir (Config s)) name
           else ∃ before dir after,
                  defaultStaticDirs = before ++ dir :: after ∧ file = Join dir name ∧
                  Forall (λ dir', fileExists (Join dir' name) = false) before)
  ∨ (tryServingFile s name σ = Done false σ ∧
     if bool_decide (StaticDir (Config s) ≠ "")
     then fileExists (Join (StaticDir (Config s)) name) = false
     else Forall (λ dir, fileExists (Join dir name) = false) defaultStaticDirs).
Proof.
  unfold tryServingFile. case_bool_decide as Hdir.
  - destruct (fileExists (Join _ name)) eqn:Hex; [left|right]; eauto.
  - clear Hdir. generalize defaultStaticDirs as dirs.
    induction dirs as [|dir dirs IH]; simpl.
    + right. by split.
    + destruct (fileExists (Join dir name)) eqn:Hex.
      * left. eexists. split; [done|]. split; [done|]. by exists [], dir, dirs.
      * destruct IH as [(file & -> & ? & before & dir' & after & -> & -> & ?)|[-> ?]].
        -- left. eexists. split; [done|]. split; [done|].
           exists (dir :: before), dir', after. split; [done|]. split; [done|].
           by constructor.
        -- right. split; [done|]. by constructor.
Qed.

(** ** What never panics *)

Lemma returns_ret {A} (a : A) : returns (ret a).
Proof. intros σ. by eexists _, _. Qed.

Lemma returns_bind {A B} (m : M A) (k : A → M B) :
  returns m → (∀ a, returns (k a)) → returns (bind m k).
Proof.
  intros Hm Hk σ. unfold bind. destruct (Hm σ) as (a & σ' & ->). apply Hk.
Qed.

Lemma returns_tryServingFile s (name : string) : returns (tryServingFile s name).
Proof.
  intros σ. rewrite tryServingFile_staticFileFor.
  destruct (staticFileFor s name); by eexists _, _.
Qed.

Lemma returns_Abort (status : nat) (body : string) : returns (Abort status body).
Proof. intros σ. by eexists _, _. Qed.

Lemma Call_Done ft body args σ rets σ' :
  Call (FuncValue ft body) args σ = Done rets σ' → body args σ = Done rets σ'.
Proof.
  unfold Call. repeat (case_match; try done).
Qed.

Lemma returns_writeReturn rets : plainReturn rets → returns (writeReturn rets).
Proof.
  intros Hplain σ. destruct rets as [|sval more]; [by eexists _, _|].
  destruct (decide (Value_Kind sval = String_)) as [Hstr|Hstr].
  { destruct (writeReturn_written sval more σ (Value_String sval)) as (σ' & -> & _).
    - left. by rewrite bool_decide_true.
    - by eexists _, _. }
  destruct Hplain as [?|[Hslice|[data ->]]]; [done| |].
  - destruct (writeReturn_written sval more σ "") as (σ' & -> & _); [|by eexists _, _].
    right. right. split; [by rewrite bool_decide_false|]. split; [|done].
    apply andb_false_iff. rewrite !bool_decide_eq_false.
    destruct (decide (Value_Kind sval = Slice)) as [Hs|Hs]; [right|by left].
    intros He. by apply Hslice.
  - destruct (writeReturn_written (ValueOf (TSlice TUint8) data) more σ data)
      as (σ' & -> & _); [|by eexists _, _].
    right. left. done.
Qed.

Lemma returns_invokeRoute s ctx route match_ :
  RecoverPanic (Config s) = true →
  plainHandler (handler route) →
  returns (invokeRoute s ctx route match_).
Proof.
  intros Hrec (ft & body & Hh & Hplain) σ. unfold invokeRoute, bindArgs. rewrite Hh.
  unfold bind at 1. unfold bind at 1. cbn [Handler_Type]. unfold ret at 1.
  unfold bind at 1. destruct (requiresContext_spec ft σ) as (withCtx & -> & _).
  unfold ret at 1. unfold bind at 1.
  destruct (Call (FuncValue ft body)
              ((if withCtx then [ValueOfCtx ctx] else [])
               ++ map (λ arg, ValueOf TString arg) (drop 1 match_)) σ)
    as [rets σ1|err σ1] eqn:Hcall.
  - unfold safelyCall. rewrite Hcall. unfold bind at 1. unfold ret at 1.
    apply Call_Done, Hplain in Hcall. by apply returns_writeReturn.
  - rewrite (safelyCall_recovers _ _ _ _ _ _ Hcall Hrec). by eexists _, _.
Qed.

Lemma Matcher_elem req rs route captures :
  Matcher req rs = Some (route, captures) → route ∈ rs.
Proof.
  induction rs as [|route' rest IH]; [done|]. simpl.
  destruct (accepts req route'); [intros [= -> _]; by left|].
  intros ?. right. by apply IH.
Qed.

(** With [RecoverPanic] set and every registered handler a function
    whose first result is of kind String, a [[]byte] or no slice of
    bytes, [routeHandler] returns for every request, from every state:
    no panic leaves it, whatever the handlers do. *)
Theorem routeHandler_never_panics s req σ :
  RecoverPanic (Config s) = true →
  Forall (λ route, plainHandler (handler route)) (routes s) →
  ∃ σ', routeHandler s req σ = Done () σ'.
Proof.
  intros Hrec Hplain.
  assert (returns (routeHandler s req)) as Hret.
  { unfold routeHandler.
    apply returns_bind; [by intros ?; eexists _, _|]. intros _.
    apply returns_bind; [by intros ?; eexists _, _|]. intros _.
    apply returns_bind; [by intros ?; eexists _, _|]. intros _.
    apply returns_bind.
    { destruct (_ || _); [apply returns_tryServingFile|apply returns_ret]. }
    intros [|]; [apply returns_ret|].
    apply returns_bind; [by intros ?; eexists _, _|]. intros _.
    apply returns_bind.
    { rewrite routeLoop_Matcher.
      destruct (Matcher req (routes s)) as [[route captures]|] eqn:HM; [|apply returns_ret].
      apply returns_bind; [|intros; apply returns_ret].
      apply returns_invokeRoute; [done|].
      apply Matcher_elem in HM. by eapply Forall_forall in Hplain. }
    intros [|]; [apply returns_ret|].
    apply returns_bind; [|intros [|]; [apply returns_ret|apply returns_Abort]].
    destruct (_ || _); [|apply returns_ret].
    apply returns_bind; [apply returns_tryServingFile|].
    intros [|]; [apply returns_ret|apply returns_tryServingFile]. }
  destruct (Hret σ) as ([] & σ' & ->). by eexists.
Qed.

(** [Abort] does not keep the value back: when the handler has called
    [Abort] and then returns a value of kind String, the dispatcher writes
    the text after the body of the abort, and sets Content-Length to the
    length of the text. *)
Theorem value_written_after_Abort s ctx route match_ args σ sval more σ1
    (status : nat) (body : string) (before : list WCall) :
  bindArgs ctx (handler route) match_ σ = Done args σ →
  Call (handler route) args σ = Done (sval :: more) σ1 →
  calls (w σ1) = before ++ [WriteHeader status; Write (bytes_of_string body)] →
  Value_Kind sval = String_ →
  ∃ σ2, invokeRoute s ctx route match_ σ = Done () σ2 ∧
        calls (w σ2)
        = before ++ [WriteHeader status; Write (bytes_of_string body);
                     Write (bytes_of_string (Value_String sval))] ∧
        Header (w σ2) !! "Content-Length"
        = Some [Itoa (String.length (Value_String sval))].
Proof.
  intros Hargs Hcall Hcalls Hkind.
  destruct (invokeRoute_text_and_bytes s ctx route match_ args σ sval more σ1 Hargs Hcall)
    as [Hstr _].
  destruct (Hstr Hkind) as (σ2 & Hinv & Hw). exists σ2. split; [done|].
  rewrite Hw. simpl. rewrite Hcalls, <- app_assoc. split; [done|].
  by rewrite lookup_insert_eq.
Qed.

End dispatcher.

(** * utils.go *)

(** ** Strings *)

Lemma append_cons (x : ascii) (a b : string) : String x a +:+ b = String x (a +:+ b).
Proof. reflexivity. Qed.

Lemma append_assoc (a b c : string) : (a +:+ b) +:+ c = a +:+ (b +:+ c).
Proof. induction a as [|x a IH]; [done|]. by rewrite !append_cons, IH. Qed.

Lemma append_nil_r (a : string) : a +:+ "" = a.
Proof. induction a as [|x a IH]; [done|]. by rewrite append_cons, IH. Qed.

Lemma length_append (a b : string) :
  String.length (a +:+ b) = (String.length a + String.length b)%nat.
Proof. induction a as [|x a IH]; [done|]. rewrite append_cons. simpl. by rewrite IH. Qed.

Lemma countByte_append (c : ascii) (a b : string) :
  countByte c (a +:+ b) = (countByte c a + countByte c b)%nat.
Proof.
  induction a as [|x a IH]; [done|]. rewrite append_cons. simpl. rewrite IH. lia.
Qed.

Lemma substring_0_append (a b : string) : substring 0 (String.length a) (a +:+ b) = a.
Proof.
  induction a as [|x a IH]; [by destruct b|]. rewrite append_cons. simpl. by rewrite IH.
Qed.

Lemma substring_append_r (a b : string) (m : nat) :
  substring (String.length a) m (a +:+ b) = substring 0 m b.
Proof. induction a as [|x a IH]; [done|]. rewrite append_cons. simpl. by rewrite IH. Qed.

Lemma substring_0_length (s : string) : substring 0 (String.length s) s = s.
Proof. induction s as [|x s IH]; simpl; [done|]. by rewrite IH. Qed.

Lemma substring_split (s : string) (n : nat) :
  (n ≤ String.length s)%nat →
  s = substring 0 n s +:+ substring n (String.length s - n) s.
Proof.
  revert n. induction s as [|x s IH]; intros [|n] Hn; simpl in *; try lia; try done.
  - by rewrite substring_0_length.
  - rewrite append_cons. f_equal. apply IH. lia.
Qed.

Lemma length_substring_0 (s : string) (n : nat) :
  (n ≤ String.length s)%nat → String.length (substring 0 n s) = n.
Proof.
  revert n. induction s as [|x s IH]; intros [|n] Hn; simpl in *; try lia; try done.
  rewrite IH; lia.
Qed.

Lemma append_inj_r (a b c : string) : a +:+ c = b +:+ c → a = b.
Proof.
  intros Heq. assert (String.length a = String.length b) as Hlen.
  { apply (f_equal String.length) in Heq. rewrite !length_append in Heq. lia. }
  rewrite <- (substring_0_append a c), Heq, Hlen. apply substring_0_append.
Qed.

(** A string with a suffix is what stands before it, then the suffix. *)
Lemma HasSuffix_split (s suffix : string) :
  HasSuffix s suffix = true →
  (String.length suffix ≤ String.length s)%nat ∧
  s = slice s 0 (String.length s - String.length suffix) +:+ suffix.
Proof.
  unfold HasSuffix, slice. rewrite bool_decide_eq_true. intros Hsuf.
  assert (String.length suffix ≤ String.length s)%nat as Hlen.
  { destruct (decide (String.length suffix ≤ String.length s)%nat) as [|Hn]; [done|].
    replace (String.length s - String.length suffix)%nat with 0%nat in Hsuf by lia.
    rewrite Nat.sub_0_r, substring_0_length in Hsuf. subst. lia. }
  split; [done|]. rewrite Nat.sub_0_r.
  pose proof (substring_split s (String.length s - String.length suffix)) as Hsplit.
  rewrite Hsuf in Hsplit. apply Hsplit. lia.
Qed.

Lemma HasSuffix_append (a suffix suffix' : string) :
  String.length suffix = String.length suffix' →
  HasSuffix (a +:+ suffix) suffix' = bool_decide (suffix = suffix').
Proof.
  intros Hlen. unfold HasSuffix, slice. rewrite length_append, <- Hlen.
  replace (String.length a + String.length suffix - String.length suffix)%nat
    with (String.length a) by lia.
  replace (String.length a + String.length suffix - String.length a)%nat
    with (String.length suffix) by lia.
  by rewrite substring_append_r, substring_0_length.
Qed.

(** [webTime] keeps the length of the text it is given; it turns a final
    UTC into GMT and leaves the rest, and a text without that suffix, as
    they are; what it returns never ends in UTC, so that a second pass
    changes nothing. *)
Theorem webTime_GMT (ftime : string) :
  String.length (webTime ftime) = String.length ftime ∧
  HasSuffix (webTime ftime) "UTC" = false ∧
  webTime (webTime ftime) = webTime ftime ∧
  (∀ before, ftime = before +:+ "UTC" → webTime ftime = before +:+ "GMT") ∧
  (HasSuffix ftime "UTC" = false → webTime ftime = ftime).
Proof.
  assert (∀ before, webTime (before +:+ "UTC") = before +:+ "GMT") as Hutc.
  { intros before. unfold webTime. rewrite (HasSuffix_append _ "UTC" "UTC") by done.
    rewrite bool_decide_true by done. f_equal. unfold slice.
    rewrite length_append. simpl.
    replace (String.length before + 3 - 3 - 0)%nat with (String.length before) by lia.
    apply substring_0_append. }
  assert (∀ s, HasSuffix s "UTC" = false → webTime s = s) as Hother.
  { intros s Hs. unfold webTime. by rewrite Hs. }
  destruct (HasSuffix ftime "UTC") eqn:Hsuf.
  - apply HasSuffix_split in Hsuf as [_ Hsplit].
    remember (slice ftime 0 (String.length ftime - String.length "UTC")) as pre eqn:Hpre.
    clear Hpre. subst ftime. rewrite !Hutc.
    assert (HasSuffix (pre +:+ "GMT") "UTC" = false) as Hgmt.
    { by rewrite (HasSuffix_append _ "GMT" "UTC"). }
    split; [by rewrite !length_append|]. split; [done|]. split; [by apply Hother|].
    split; [|done].
    intros before Heq. by apply append_inj_r in Heq as ->.
  - rewrite (Hother _ Hsuf). split; [done|]. split; [done|]. split; [by apply Hother|].
    split; [|done]. intros before Heq. rewrite Heq in Hsuf.
    by rewrite (HasSuffix_append _ "UTC" "UTC") in Hsuf.
Qed.

(** A name is a file, a directory or neither, never both: when [os.Stat]
    fails [fileExists] and [dirExists] are both false, and when it
    succeeds exactly one of them is true. *)
Theorem file_or_directory `{Surroundings} (name : string) :
  match Stat name with
  | None => fileExists name = false ∧ dirExists name = false
  | Some _ => fileExists name = negb (dirExists name)
  end.
Proof.
  unfold fileExists, dirExists. by destruct (Stat name) as [[|]|].
Qed.

(** ** [Urlencode] *)

Lemma hexDigit_upper (n : N) (c : ascii) :
  c = "&"%char ∨ c = "="%char → hexDigit "0123456789ABCDEF" n ≠ c.
Proof.
  intros Hc. unfold hexDigit. generalize (N.to_nat n) as k. intros k.
  do 17 (destruct k as [|k]; [destruct Hc as [-> | ->]; done|]).
  destruct Hc as [-> | ->]; by destruct k.
Qed.

(** An escaped text holds neither [&] nor [=]. *)
Lemma QueryEscape_separators (s : string) (c : ascii) :
  c = "&"%char ∨ c = "="%char → countByte c (QueryEscape s) = 0.
Proof.
  intros Hc. induction s as [|x s IH]; [done|]. simpl.
  case_bool_decide as Hspace.
  { simpl. rewrite IH. rewrite bool_decide_false; [done|]. destruct Hc as [-> | ->]; done. }
  destruct (shouldEscape x) eqn:Hesc; simpl.
  - rewrite IH. rewrite !bool_decide_false; [done|by apply hexDigit_upper..|].
    destruct Hc as [-> | ->]; done.
  - rewrite IH. rewrite bool_decide_false; [done|].
    intros ->. destruct Hc as [-> | ->]; done.
Qed.

Lemma writePairs_append (buf : string) (pairs : list (string * string)) :
  writePairs buf pairs = buf +:+ writePairs "" pairs.
Proof.
  revert buf. induction pairs as [|[k v] more IH]; intros buf; simpl.
  - by rewrite append_nil_r.
  - rewrite (IH (buf +:+ _)), (IH ("" +:+ _)). by rewrite append_assoc.
Qed.

Lemma writePairs_concat (pairs : list (string * string)) :
  pairs ≠ [] →
  writePairs "" pairs
  = String.concat "&" (map (λ kv, QueryEscape kv.1 +:+ "=" +:+ QueryEscape kv.2) pairs)
    +:+ "&".
Proof.
  induction pairs as [|[k v] more IH]; [done|]. intros _. simpl writePairs.
  rewrite writePairs_append.
  destruct more as [|kv more].
  - simpl. by rewrite append_nil_r, !append_assoc.
  - rewrite IH by done. cbn [map String.concat fst snd].
    change ("" +:+ ?x) with x. by rewrite !append_assoc.
Qed.

Lemma countByte_concat (pairs : list (string * string)) (c : ascii) :
  c = "&"%char ∨ c = "="%char →
  pairs ≠ [] →
  countByte c
    (String.concat "&" (map (λ kv, QueryEscape kv.1 +:+ "=" +:+ QueryEscape kv.2) pairs))
  = if bool_decide (c = "&"%char) then (length pairs - 1)%nat else length pairs.
Proof.
  intros Hc. induction pairs as [|[k v] more IH]; [done|]. intros _.
  destruct more as [|kv more].
  - cbn [map String.concat fst snd length].
    rewrite !countByte_append, !QueryEscape_separators by done.
    destruct Hc as [-> | ->]; done.
  - cbn [map String.concat fst snd] in *. rewrite !countByte_append, IH by done.
    rewrite !QueryEscape_separators by done.
    destruct Hc as [-> | ->]; simpl; lia.
Qed.

(** [Urlencode] of the empty map panics on its last line.  Of a map
    that is not empty it returns the escaped pairs, each as key, [=] and
    value, with [&] between them and none at the end; whatever the keys
    and the values hold, [=] stands in the result once for each pair and
    [&] once between two pairs, and nowhere else. *)
Theorem Urlencode_separators (data : gmap string string) :
  (data = ∅ →
   Urlencode data = Panics "runtime error: slice bounds out of range [:-1]") ∧
  (data ≠ ∅ →
   let out :=
     String.concat "&"
       (map (λ kv, QueryEscape kv.1 +:+ "=" +:+ QueryEscape kv.2) (map_to_list data)) in
   Urlencode data = Returns out ∧
   countByte "=" out = size data ∧
   countByte "&" out = (size data - 1)%nat).
Proof.
  unfold Urlencode, Urlencode_over. split.
  - intros ->. by rewrite map_to_list_empty.
  - intros Hne. assert (map_to_list data ≠ []) as Hpairs.
    { intros Hnil. by apply map_to_list_empty_iff in Hnil. }
    cbn zeta. rewrite writePairs_concat by done.
    rewrite length_append. rewrite bool_decide_false by (simpl; lia).
    unfold slice. simpl String.length.
    replace (String.length _ + 1 - 1 - 0)%nat with (String.length
      (String.concat "&"
         (map (λ kv, QueryEscape kv.1 +:+ "=" +:+ QueryEscape kv.2) (map_to_list data))))
      by lia.
    rewrite substring_0_append. split; [done|].
    rewrite !countByte_concat by (done || by (left + right)).
    unfold size, map_size. by rewrite !length_map_to_list.
Qed.

(** * web.go: the methods of [Context] *)

Section context_facts.
Context `{Packages}.

(** [ContentType] changes the response exactly when it returns a type
    that is not empty, and then Content-Type is that type alone.  A value
    with a slash is taken as the type itself; any other is looked up as an
    extension, with or without its dot. *)
Theorem ContentType_sets_what_it_returns (val : string) σ :
  (∃ ctype,
     ContentType val σ
     = Done ctype (if bool_decide (ctype ≠ "") then header_set "Content-Type" ctype σ else σ)) ∧
  (ContainsRune val "/" = true →
     ContentType val σ = Done val (header_set "Content-Type" val σ)) ∧
  (ContainsRune val "/" = false → HasPrefix val "." = false →
     ContentType val σ = ContentType ("." +:+ val) σ).
Proof.
  split; [|split].
  - exists (if ContainsRune val "/" then val
            else TypeByExtension (if negb (HasPrefix val ".") then "." +:+ val else val)).
    unfold ContentType, bind. by case_bool_decide.
  - intros Hslash. unfold ContentType, bind. rewrite Hslash.
    rewrite bool_decide_true; [done|]. intros ->. done.
  - intros Hslash Hdot.
    assert (ContainsRune ("." +:+ val) "/" = false) as Hslash'.
    { rewrite append_cons. simpl. exact Hslash. }
    assert (HasPrefix ("." +:+ val) "." = true) as Hdot'.
    { unfold HasPrefix, slice. rewrite append_cons. simpl. by destruct val. }
    unfold ContentType. by rewrite Hslash, Hdot, Hslash', Hdot'.
Qed.

(** [SetCookie] adds and never replaces: after two cookies the lines of
    both stand in Set-Cookie, in their order, behind those that were there;
    no other header is touched and nothing is written. *)
Theorem SetCookie_keeps_earlier (c1 c2 : Cookie) σ :
  ∃ σ', (SetCookie c1 ;; SetCookie c2) σ = Done () σ' ∧
        Header (w σ') !! "Set-Cookie"
        = Some (default [] (Header (w σ) !! "Set-Cookie")
                ++ [Cookie_String c1; Cookie_String c2]) ∧
        (∀ hdr : string, hdr ≠ "Set-Cookie" → Header (w σ') !! hdr = Header (w σ) !! hdr) ∧
        calls (w σ') = calls (w σ) ∧ logged σ' = logged σ.
Proof.
  eexists. split; [reflexivity|]. simpl. split; [|split; [|done]].
  - rewrite lookup_insert_eq. rewrite lookup_insert_eq. simpl. by rewrite <- app_assoc.
  - intros hdr Hne. by rewrite !lookup_insert_ne.
Qed.

End context_facts.

(** ** The standard encoding of base64 *)

Lemma list_ind3 {A} (P : list A → Prop) :
  P [] → (∀ a, P [a]) → (∀ a b, P [a; b]) →
  (∀ a b c l, P l → P (a :: b :: c :: l)) →
  ∀ l, P l.
Proof.
  intros H0 H1 H2 H3 l.
  assert (∀ n l, (length l ≤ n)%nat → P l) as Hn; [|by apply (Hn (length l))].
  clear l. induction n as [|n IH]; intros [|a [|b [|c l]]] Hlen; simpl in *; try done; try lia.
  apply H3, IH. lia.
Qed.

Lemma base64_dec_enc (i : N) : (i < 64)%N → base64.dec (base64.enc i) = Some i.
Proof.
  intros Hi. unfold base64.enc. rewrite <- (N2Nat.id i) at 2.
  assert (N.to_nat i < 64)%nat as Hk by lia. revert Hk. generalize (N.to_nat i) as k.
  intros k Hk. do 64 (destruct k as [|k]; [reflexivity|]). lia.
Qed.

Lemma base64_enc_plain (i : N) :
  base64.enc i ≠ "|"%char ∧ base64.enc i ≠ "013"%char ∧ base64.enc i ≠ "010"%char.
Proof.
  unfold base64.enc. generalize (N.to_nat i) as k. intros k.
  do 64 (destruct k as [|k]; [done|]). by destruct k.
Qed.

Lemma base64_encode_plain (src : list ascii) :
  Forall (λ c, c ≠ "|"%char ∧ c ≠ "013"%char ∧ c ≠ "010"%char) (base64.encode src).
Proof.
  induction src as [|a|a b|a b c l IH] using list_ind3;
    cbn [base64.encode]; cbv zeta;
    repeat (apply Forall_cons; split; [first [apply base64_enc_plain | done]|]);
    first [by apply Forall_nil | assumption].
Qed.

Lemma base64_regroup1 (a : N) :
  (a < 256)%N →
  let val := (a * 65536)%N in
  (((val / 262144 mod 64 * 64 + val / 4096 mod 64) * 4096) / 65536 = a)%N.
Proof. intros Ha val. subst val. zify; Z.to_euclidean_division_equations; lia. Qed.

Lemma base64_regroup2 (a b : N) :
  (a < 256)%N → (b < 256)%N →
  let val := (a * 65536 + b * 256)%N in
  let val' := (((val / 262144 mod 64 * 64 + val / 4096 mod 64) * 64 + val / 64 mod 64) * 64)%N in
  (val' / 65536 = a ∧ val' / 256 mod 256 = b)%N.
Proof.
  intros Ha Hb val val'.
  assert (val' = val) as ->.
  { subst val val'. zify; Z.to_euclidean_division_equations; lia. }
  subst val. split; zify; Z.to_euclidean_division_equations; lia.
Qed.

Lemma base64_regroup3 (a b c : N) :
  (a < 256)%N → (b < 256)%N → (c < 256)%N →
  let val := (a * 65536 + b * 256 + c)%N in
  let val' := (((val / 262144 mod 64 * 64 + val / 4096 mod 64) * 64 + val / 64 mod 64) * 64
               + val mod 64)%N in
  (val' / 65536 = a ∧ val' / 256 mod 256 = b ∧ val' mod 256 = c)%N.
Proof.
  intros Ha Hb Hc val val'.
  assert (val' = val) as ->.
  { subst val val'. zify; Z.to_euclidean_division_equations; lia. }
  subst val. repeat split; zify; Z.to_euclidean_division_equations; lia.
Qed.

Lemma base64_decode_encode (src : list ascii) : base64.decode (base64.encode src) = src.
Proof.
  induction src as [|a|a b|a b c l IH] using list_ind3; [done|..].
  - pose proof (base64_regroup1 _ (N_ascii_bounded a)) as Hval.
    cbn [base64.encode base64.decode]; cbv zeta.
    rewrite !base64_dec_enc by (apply N.mod_lt; lia).
    change (base64.dec base64.pad) with (@None N). cbv iota beta.
    rewrite !bool_decide_true by done. cbn [andb].
    cbv zeta in Hval. rewrite Hval. by rewrite ascii_N_embedding.
  - pose proof (base64_regroup2 _ _ (N_ascii_bounded a) (N_ascii_bounded b)) as [Ha Hb].
    cbn [base64.encode base64.decode]; cbv zeta.
    rewrite !base64_dec_enc by (apply N.mod_lt; lia).
    change (base64.dec base64.pad) with (@None N). cbv iota beta.
    rewrite !bool_decide_true by done.
    rewrite Ha, Hb. by rewrite !ascii_N_embedding.
  - pose proof (base64_regroup3 _ _ _ (N_ascii_bounded a) (N_ascii_bounded b)
                  (N_ascii_bounded c)) as (Ha & Hb & Hc).
    cbn [base64.encode base64.decode]; cbv zeta.
    rewrite !base64_dec_enc by (apply N.mod_lt; lia). cbv iota beta. rewrite IH.
    rewrite Ha, Hb, Hc. by rewrite !ascii_N_embedding.
Qed.

Lemma countByte_string_of_list_ascii (c : ascii) (l : list ascii) :
  Forall (λ c', c' ≠ c) l → countByte c (string_of_list_ascii l) = 0%nat.
Proof.
  induction 1 as [|c' l Hc _ IH]; [done|]. simpl. by rewrite bool_decide_false, IH.
Qed.

(** What the encoder makes of a text, the decoder reads back. *)
Lemma base64_ReadAll_EncodeToString (s : string) :
  base64.ReadAll (base64.EncodeToString s) = s ∧
  countByte "|" (base64.EncodeToString s) = 0%nat.
Proof.
  unfold base64.ReadAll, base64.EncodeToString.
  pose proof (base64_encode_plain (list_ascii_of_string s)) as Hplain. split.
  - rewrite list_ascii_of_string_of_list_ascii.
    assert (∀ l, Forall (λ c, c ≠ "|"%char ∧ c ≠ "013"%char ∧ c ≠ "010"%char) l →
              filter (λ c, c ≠ "013"%char ∧ c ≠ "010"%char) l = l) as Hfilter.
    { induction 1 as [|c l [_ Hc] _ IH]; [done|]. by rewrite filter_cons_True, IH. }
    by rewrite Hfilter, base64_decode_encode, string_of_list_ascii_of_string.
  - apply countByte_string_of_list_ascii. eapply Forall_impl; [done|]. by intros c [? _].
Qed.

(** ** Signed cookies *)

Lemma cut_append (a rest : string) (sep : ascii) :
  countByte sep a = 0%nat → cut (a +:+ String sep rest) sep = Some (a, rest).
Proof.
  induction a as [|c a IH]; intros Hcount.
  - change ("" +:+ String sep rest) with (String sep rest). simpl.
    by rewrite bool_decide_true.
  - rewrite append_cons. simpl in *. case_bool_decide; [done|]. by rewrite IH.
Qed.

Lemma cut_countByte (s : string) (sep : ascii) :
  match cut s sep with
  | Some (_, after) => countByte sep s = S (countByte sep after)
  | None => countByte sep s = 0%nat
  end.
Proof.
  induction s as [|c s IH]; [done|]. simpl. case_bool_decide; [done|].
  by destruct (cut s sep) as [[before after]|].
Qed.

Lemma SplitN_three (a b c : string) (sep : ascii) :
  countByte sep a = 0%nat → countByte sep b = 0%nat →
  SplitN (a +:+ String sep (b +:+ String sep c)) sep 3 = [a; b; c].
Proof. intros Ha Hb. simpl. rewrite cut_append by done. by rewrite cut_append. Qed.

Lemma concat_three (sep : ascii) (a b c : string) :
  String.concat (String sep "") [a; b; c] = a +:+ String sep (b +:+ String sep c).
Proof. reflexivity. Qed.

Lemma countByte_string_of_uint (c : ascii) (d : Decimal.uint) :
  Ascii.is_nat c = None → countByte c (NilEmpty.string_of_uint d) = 0%nat.
Proof.
  intros Hc. induction d; simpl; [done|..];
    (rewrite bool_decide_false; [done|]); by intros <-.
Qed.

Lemma countByte_FormatInt (n : Z) : countByte "|" (FormatInt n) = 0%nat.
Proof.
  unfold FormatInt.
  destruct (Z.to_int n) as [d|d]; simpl;
    (destruct d; [done|..]); by apply (countByte_string_of_uint "|").
Qed.

Lemma wrap64_id (z : Z) : (- 2 ^ 63 ≤ z < 2 ^ 63)%Z → wrap64 z = z.
Proof. intros Hz. unfold wrap64. rewrite Z.mod_small; lia. Qed.

Section cookies.
Context `{Packages}.

Lemma GetSecureCookie_skip config now (pre more : list Cookie) (name : string) :
  Forall (λ c, Cookie_Name c ≠ name) pre →
  GetSecureCookie config now (pre ++ more) name = GetSecureCookie config now more name.
Proof.
  induction 1 as [|c pre Hc _ IH]; [done|]. simpl. by rewrite bool_decide_true.
Qed.

(** A value set by [SetSecureCookie] and sent back under its name comes
    out of [GetSecureCookie] as it went in, up to and with the 31st day
    after the stamp, and is refused from the next second on. *)
Theorem secure_cookie_round_trip config (now now' later : Z) (name val : string) (age : Z)
    (pre more : list Cookie) σ :
  CookieSecret config ≠ "" →
  ParseInt (FormatInt now) = now →
  (- 2 ^ 63 ≤ later - 31 * 86400 ∧ later < 2 ^ 63)%Z →
  Forall (λ c, Cookie_Name c ≠ name) pre →
  ∃ cookie,
    SetSecureCookie config now now' name val age σ
    = Done () (header_added "Set-Cookie" (Cookie_String cookie) σ) ∧
    Cookie_Name cookie = name ∧
    ∀ sent, Cookie_Name sent = name → Cookie_Value sent = Cookie_Value cookie →
      GetSecureCookie config later (pre ++ sent :: more) name
      = Returns (if bool_decide (now < later - 31 * 86400)%Z then ("", false) else (val, true)).
Proof.
  intros Hsecret Hparse Hlater Hpre. unfold SetSecureCookie.
  rewrite bool_decide_false by (by destruct (CookieSecret config)).
  eexists. split; [reflexivity|]. split; [reflexivity|].
  intros sent Hname Hvalue. rewrite GetSecureCookie_skip by done.
  destruct (base64_ReadAll_EncodeToString val) as [Hread Hplain].
  cbn [GetSecureCookie]. rewrite bool_decide_false by (by intros []).
  rewrite Hvalue. cbn [NewCookie Cookie_Value]. rewrite concat_three.
  rewrite SplitN_three by (done || apply countByte_FormatInt).
  rewrite bool_decide_false by (by intros []).
  rewrite Hparse, wrap64_id by lia. rewrite Hread.
  by case_bool_decide.
Qed.

(** Of the cookies of a name only the first the request carries is looked
    at: what it gives, a value, a refusal or a panic, is the result,
    whatever stands behind it. *)
Theorem GetSecureCookie_first_of_name config now (pre more : list Cookie) (c : Cookie)
    (name : string) :
  Forall (λ c', Cookie_Name c' ≠ name) pre →
  Cookie_Name c = name →
  GetSecureCookie config now (pre ++ c :: more) name = GetSecureCookie config now [c] name.
Proof.
  intros Hpre Hname. rewrite GetSecureCookie_skip by done. simpl.
  rewrite bool_decide_false by (by intros []).
  by destruct (SplitN (Cookie_Value c) "|" 3) as [|val [|timestamp [|sig [|]]]].
Qed.

(** A cookie of the name whose value has fewer than two bars makes
    [GetSecureCookie] panic with an index out of range; no test and no
    recover stands before it. *)
Theorem GetSecureCookie_malformed_panics config now (pre more : list Cookie) (c : Cookie)
    (name : string) :
  Forall (λ c', Cookie_Name c' ≠ name) pre →
  Cookie_Name c = name →
  (countByte "|" (Cookie_Value c) < 2)%nat →
  ∃ n : nat, (n < 2)%nat ∧ countByte "|" (Cookie_Value c) = n ∧
    GetSecureCookie config now (pre ++ c :: more) name
    = Panics (if bool_decide (n = 0%nat)
              then "runtime error: index out of range [1] with length 1"
              else "runtime error: index out of range [2] with length 2").
Proof.
  intros Hpre Hname Hbars. rewrite GetSecureCookie_skip by done.
  exists (countByte "|" (Cookie_Value c)). split; [done|]. split; [done|].
  simpl. rewrite bool_decide_false by (by intros []).
  pose proof (cut_countByte (Cookie_Value c) "|") as Hcut.
  destruct (cut (Cookie_Value c) "|") as [[val after]|].
  - pose proof (cut_countByte after "|") as Hcut'.
    destruct (cut after "|") as [[ts sig]|]; [lia|].
    rewrite Hcut, Hcut'. done.
  - by rewrite Hcut.
Qed.

End cookies.

(** * scgi.go: what a connection sends *)

Section scgi_facts.
Context (statusText : gmap nat string).
Context (range : gmap string (list string) → list (string * list string)).

(** Before the headers are sent nothing is. *)
Lemma connOps_headers_only (ops : list ConnOp) (conn : scgiConn) :
  Forall (λ op, statusOf op = None) ops →
  fd (connOps statusText range ops conn) = fd conn ∧
  req_Method (connOps statusText range ops conn) = req_Method conn ∧
  wroteHeaders (connOps statusText range ops conn) = wroteHeaders conn.
Proof.
  intros Hops. revert conn.
  induction Hops as [|op ops Hop _ IH]; intros conn; [done|].
  destruct op as [change| |]; try done.
  unfold connOps in *. simpl. by destruct (IH (withHeaders (change (headers conn)) conn))
    as (-> & -> & ->).
Qed.

(** Once they are sent, only writes add to what is sent, and none does
    when the method is HEAD. *)
Lemma connOps_after_headers (ops : list ConnOp) (conn : scgiConn) :
  wroteHeaders conn = true →
  fd (connOps statusText range ops conn)
  = fd conn ++ (if bool_decide (req_Method conn = "HEAD") then [] else written ops) ∧
  wroteHeaders (connOps statusText range ops conn) = true.
Proof.
  revert conn. induction ops as [|op ops IH]; intros conn Hwrote.
  - unfold connOps. simpl. split; [|done]. case_bool_decide; by rewrite app_nil_r.
  - unfold connOps in *. cbn [foldl].
    destruct op as [change|status|data].
    + cbn [connOp]. by destruct (IH (withHeaders (change (headers conn)) conn) Hwrote) as [-> ->].
    + cbn [connOp]. unfold scgiConn_WriteHeader. rewrite Hwrote. cbn [negb].
      by destruct (IH conn Hwrote) as [-> ->].
    + cbn [connOp]. unfold scgiConn_Write. rewrite Hwrote. cbn [negb].
      case_bool_decide as Hhead; cbn [fst].
      * destruct (IH conn Hwrote) as [-> ->]. by rewrite bool_decide_true.
      * match goal with |- context [foldl _ ?c ops] => destruct (IH c Hwrote) as [-> ->] end.
        cbn [fd req_Method written omap]. rewrite bool_decide_false by done.
        by rewrite <- app_assoc.
Qed.

(** The first [WriteHeader] or [Write] sends the status line, that of 200
    for a [Write], and the headers as they are set at that time, once;
    no later status and no later header is ever sent.  Behind them come
    the data of the writes in their order, and nothing at all when the
    method is HEAD. *)
Theorem scgi_first_status_wins (method : string) (pre post : list ConnOp) (first : ConnOp)
    (status : nat) :
  Forall (λ op, statusOf op = None) pre →
  statusOf first = Some status →
  fd (finishRequest range (connOps statusText range (pre ++ first :: post) (newConn method)))
  = (statusLine statusText status +:+ headerLines range (headers (connOps statusText range pre (newConn method))) +:+ CRLF)
      :: (if bool_decide (method = "HEAD") then [] else written (first :: post)).
Proof.
  intros Hpre Hfirst.
  destruct (connOps_headers_only pre (newConn method) Hpre) as (Hfd & Hmethod & Hwrote).
  unfold connOps in *. rewrite foldl_app. cbn [foldl].
  set (conn := foldl _ (newConn method) pre) in *.
  set (block := statusLine statusText status +:+ headerLines range (headers conn) +:+ CRLF).
  assert (scgiConn_WriteHeader statusText range status conn
          = {| fd := [block]; req_Method := method; headers := headers conn;
               wroteHeaders := true |}) as Hblock.
  { unfold scgiConn_WriteHeader. rewrite Hwrote, Hfd, Hmethod. cbn [negb newConn fd app].
    do 2 f_equal. unfold block, statusLine. by rewrite !append_assoc. }
  destruct first as [change|status'|data]; [done|..]; simplify_eq/=.
  - rewrite Hblock.
    match goal with |- context [foldl _ ?c post] =>
      destruct (connOps_after_headers post c eq_refl) as [Hpost Hdone] end.
    unfold connOps in *. unfold finishRequest. rewrite Hdone. cbn [negb].
    by rewrite Hpost.
  - unfold scgiConn_Write. rewrite Hwrote. cbn [negb]. rewrite Hblock. cbn [req_Method].
    case_bool_decide as Hhead; cbn [fst].
    + match goal with |- context [foldl _ ?c post] =>
        destruct (connOps_after_headers post c eq_refl) as [Hpost Hdone] end.
      unfold connOps in *. unfold finishRequest. rewrite Hdone. cbn [negb]. rewrite Hpost.
      cbn [fd req_Method]. by rewrite bool_decide_true.
    + match goal with |- context [foldl _ ?c post] =>
        destruct (connOps_after_headers post c eq_refl) as [Hpost Hdone] end.
      unfold connOps in *. unfold finishRequest. rewrite Hdone. cbn [negb]. rewrite Hpost.
      cbn [fd req_Method]. by rewrite bool_decide_false.
Qed.

(** When a request ends with neither [WriteHeader] nor [Write] called,
    [finishRequest] sends the headers and the empty line alone: no status
    line goes before them. *)
Theorem scgi_no_write_no_status_line (method : string) (ops : list ConnOp) :
  Forall (λ op, statusOf op = None) ops →
  fd (finishRequest range (connOps statusText range ops (newConn method)))
  = [headerLines range (headers (connOps statusText range ops (newConn method))) +:+ CRLF].
Proof.
  intros Hops.
  destruct (connOps_headers_only ops (newConn method) Hops) as (Hfd & _ & Hwrote).
  unfold finishRequest. rewrite Hwrote. cbn [negb fd]. by rewrite Hfd.
Qed.

End scgi_facts.

(** ** The header block of a request *)

Lemma Split_no_sep (s : string) (sep : ascii) (fuel : nat) :
  countByte sep s = 0%nat → Split s sep fuel = [s].
Proof.
  intros Hs. destruct fuel as [|fuel]; [done|]. simpl.
  pose proof (cut_countByte s sep) as Hcut.
  destruct (cut s sep) as [[before after]|]; [lia|done].
Qed.

Lemma Split_pairs (pairs : list (string * string)) (last : string) (fuel : nat) :
  Forall (λ kv, countByte "000" kv.1 = 0%nat ∧ countByte "000" kv.2 = 0%nat) pairs →
  countByte "000" last = 0%nat →
  (String.length (foldr (λ kv rest, kv.1 +:+ String "000" (kv.2 +:+ String "000" rest))
                        last pairs) ≤ fuel)%nat →
  Split (foldr (λ kv rest, kv.1 +:+ String "000" (kv.2 +:+ String "000" rest)) last pairs)
    "000" fuel
  = flat_map (λ kv, [kv.1; kv.2]) pairs ++ [last].
Proof.
  intros Hpairs Hlast. revert fuel.
  induction Hpairs as [|[k v] pairs [Hk Hv] _ IH]; intros fuel Hfuel.
  - by apply Split_no_sep.
  - cbn [foldr flat_map fst snd app] in *.
    rewrite length_append in Hfuel. cbn [String.length] in Hfuel.
    rewrite length_append in Hfuel. cbn [String.length] in Hfuel.
    destruct fuel as [|[|fuel]]; [lia..|].
    cbn [Split]. rewrite cut_append by done. rewrite cut_append by done.
    rewrite IH by lia. done.
Qed.

Lemma pairUp_pairs (pairs : list (string * string)) (last : string) (m : gmap string string) :
  pairUp m (flat_map (λ kv, [kv.1; kv.2]) pairs ++ [last])
  = foldl (λ m kv, <[kv.1 := kv.2]> m) m pairs.
Proof.
  revert m. induction pairs as [|[k v] pairs IH]; intros m; [done|]. simpl. by rewrite IH.
Qed.

(** [readScgiRequest] reads the header block back as it is laid out: of
    names and values that each end in a zero byte it makes the map of
    the names to their values, a later value of a name replacing an
    earlier one; a piece left after the last zero byte is dropped. *)
Theorem scgiHeaders_pairs (pairs : list (string * string)) (last : string) :
  Forall (λ kv, countByte "000" kv.1 = 0%nat ∧ countByte "000" kv.2 = 0%nat) pairs →
  countByte "000" last = 0%nat →
  scgiHeaders (foldr (λ kv rest, kv.1 +:+ String "000" (kv.2 +:+ String "000" rest))
                     last pairs)
  = foldl (λ m kv, <[kv.1 := kv.2]> m) ∅ pairs.
Proof.
  intros Hpairs Hlast. unfold scgiHeaders.
  rewrite Split_pairs by done. apply pairUp_pairs.
Qed.

(** * fcgi.go and scgi.go: the address to listen on *)

(** The two servers listen alike, on a unix socket for an address that
    begins with a slash and on tcp for any other, but for the empty
    address: there SCGI listens on tcp and FastCGI panics on [addr[0]]
    before it listens. *)
Theorem fcgi_scgi_same_but_empty (addr : string) :
  (addr ≠ "" →
     fcgiListen addr = Returns (scgiListen addr) ∧
     scgiListen addr
     = net_Listen (match addr with String "/" _ => "unix" | _ => "tcp" end) addr) ∧
  (addr = "" →
     fcgiListen addr = Panics "runtime error: index out of range [0] with length 0" ∧
     scgiListen addr = net_Listen "tcp" addr).
Proof.
  split; [|by intros ->].
  intros Hne. destruct addr as [|c rest]; [done|]. clear Hne.
  assert (HasPrefix (String c rest) "/" = bool_decide (c = "/"%char)) as Hprefix.
  { unfold HasPrefix, slice. simpl. destruct rest; simpl; by repeat case_bool_decide; simplify_eq. }
  unfold scgiListen, fcgiListen. rewrite Hprefix.
  case_bool_decide as Hc; (split; [done|]).
  - by subst c.
  - f_equal. destruct c as [[] [] [] [] [] [] [] []]; done.
Qed.

(** * server.go: a server that was not made by [NewServer] *)

Section init_facts.
Context `{RegexpLib, Surroundings}.

(** [initServer] gives a server without a configuration the zero one, in
    which [RecoverPanic] is unset.  The panic of a handler of such a
    server is then not held back: it leaves [routeHandler], with nothing
    of an answer written. *)
Theorem initServer_default_lets_panic_through (s0 : ServerStruct) (req : Request)
    (route : route) (captures : list string) (args : list Value) (err : string) σ σ' :
  let srv := {| Config := {| StaticDir := ""; Addr := ""; Port := 0; CookieSecret := "";
                             RecoverPanic := false; Profiler := false |};
                routes := routes_ s0;
                Logger := default [] (Logger_ptr s0) |} in
  let ctx := {| Request_ := req; Params := fst <$> Form req |} in
  let σh := header_set "Content-Type" "text/html; charset=utf-8"
              (header_set "Date" (webTime now)
                 (header_set "Server" "web.go"
                    (printed [LogRequest (Method req) (Path req)
                                (if bool_decide (0 < size (Form req))%nat
                                 then Some (fst <$> Form req) else None)] σ))) in
  Config_ptr s0 = None →
  staticFileFor srv (Path req) = None →
  Matcher req (routes_ s0) = Some (route, captures) →
  bindArgs ctx (handler route) (Path req :: captures) σh = Done args σh →
  Call (handler route) args σh = Panicked err σ' →
  deref (initServer s0) = Some srv ∧
  routeHandler srv req σ = Panicked err σ'.
Proof.
  intros srv ctx σh Hconfig Hstatic Hmatch Hargs Hcall. split.
  { unfold deref, initServer. simpl. rewrite Hconfig. by destruct (Logger_ptr s0). }
  unfold routeHandler, bind at 1, log. unfold bind at 1, SetHeader, Header_Set.
  unfold bind at 1. unfold bind at 1.
  assert (∀ (k : bool → M unit) σ1,
            k false σ1 = Panicked err σ' →
            (served <- (if bool_decide (Method req = "GET") || bool_decide (Method req = "HEAD")
                        then tryServingFile srv (Path req) else ret false) ;; k served) σ1
            = Panicked err σ') as Hserved.
  { intros k σ1 Hk. unfold bind.
    destruct (_ || _); [|done]. by rewrite tryServingFile_staticFileFor, Hstatic. }
  apply Hserved.
  unfold bind at 1, Header_Set. unfold bind at 1.
  rewrite routeLoop_Matcher. cbn [routes srv]. rewrite Hmatch.
  assert (invokeRoute srv ctx route (Path req :: captures) σh = Panicked err σ') as Hinv.
  { unfold invokeRoute, bind at 1. rewrite Hargs. unfold bind at 1.
    unfold safelyCall. by rewrite Hcall. }
  unfold bind at 1. unfold bind at 1.
  match goal with |- context [invokeRoute ?a ?b ?c ?d ?e] =>
    change (invokeRoute a b c d e) with (invokeRoute srv ctx route (Path req :: captures) σh)
  end.
  by rewrite Hinv.
Qed.

End init_facts.

(** * The rest of the package on the examples *)

Module Concrete2.
Import MiniRegexp Example Example2.

Lemma static_file_before_routes_witness :
  ∃ σ', @routeHandler _ oneFile emptyServer (request "GET" "/logo.png") σ0 = Done () σ' ∧
        calls (w σ') = [ServeFile "/srv/static/logo.png"] ∧
        Header (w σ') !! "Content-Type" = None ∧
        @routeHandler _ oneFile {| Config := Config_; routes := [catchAll]; Logger := [] |}
          (request "GET" "/logo.png") σ0
        = Done () σ'.
Proof.
  destruct (@static_file_before_routes _ oneFile emptyServer (request "GET" "/logo.png") σ0
              "/srv/static/logo.png" [catchAll]) as [Hrun Hsame].
  - left. reflexivity.
  - vm_compute. reflexivity.
  - eexists. split; [exact Hrun|]. split; [reflexivity|]. split; [reflexivity|].
    rewrite <- Hrun. exact Hsame.
Defined.

Lemma index_html_before_index_htm_witness :
  ∃ σ', @routeHandler _ withIndex {| Config := Config_; routes := [posted]; Logger := [] |}
          (request "GET" "/docs") σ0 = Done () σ' ∧
        calls (w σ') = [ServeFile "/srv/static/docs/index.htm"] ∧
        Header (w σ') !! "Content-Type" = Some ["text/html; charset=utf-8"].
Proof.
  eexists. split.
  - apply (@index_html_before_index_htm _ withIndex
             {| Config := Config_; routes := [posted]; Logger := [] |}
             (request "GET" "/docs") σ0 "/srv/static/docs/index.htm").
    + left. reflexivity.
    + vm_compute. reflexivity.
    + repeat constructor.
    + right. split; vm_compute; reflexivity.
  - split; reflexivity.
Defined.

Lemma routeHandler_never_panics_witness :
  ∃ σ', routeHandler threeRoutes (request "GET" "/boom") σ0 = Done () σ'.
Proof.
  apply (routeHandler_never_panics threeRoutes (request "GET" "/boom") σ0).
  - reflexivity.
  - repeat apply Forall_cons_2; [| | |apply Forall_nil_2].
    + eexists _, _. split; [reflexivity|]. intros args σ rets σ' Hbody. discriminate Hbody.
    + eexists _, _. split; [reflexivity|]. intros args σ rets σ' Hbody. simpl in Hbody.
      repeat case_match; injection Hbody as <- _; by left.
    + eexists _, _. split; [reflexivity|]. intros args σ rets σ' Hbody. simpl in Hbody.
      repeat case_match; injection Hbody as <- _; by left.
Defined.

Lemma value_written_after_Abort_witness :
  ∃ σ2, invokeRoute emptyServer (context (request "GET" "/secret")) guarded ["/secret"] σ0
        = Done () σ2 ∧
        calls (w σ2) = [] ++ [WriteHeader 401; Write "no"; Write "body"] ∧
        Header (w σ2) !! "Content-Length" = Some ["4"].
Proof.
  apply (value_written_after_Abort emptyServer (context (request "GET" "/secret")) guarded
           ["/secret"] [ValueOfCtx (context (request "GET" "/secret"))] σ0
           (ValueOf TString "body") [] (wrote [WriteHeader 401; Write "no"] σ0)
           401 "no" []).
  - reflexivity.
  - reflexivity.
  - reflexivity.
  - reflexivity.
Defined.

Lemma secure_cookie_round_trip_witness :
  ∃ cookie,
    SetSecureCookie secret 1700000000 1700000000 "user" "alice" 3600 σ0
    = Done () (header_added "Set-Cookie" (Cookie_String cookie) σ0) ∧
    Cookie_Name cookie = "user" ∧
    ∀ sent, Cookie_Name sent = "user" → Cookie_Value sent = Cookie_Value cookie →
      GetSecureCookie secret 1700086400 ([lang] ++ sent :: [unsigned]) "user"
      = Returns (if bool_decide (1700000000 < 1700086400 - 31 * 86400)%Z
                 then ("", false) else ("alice", true)).
Proof.
  apply (secure_cookie_round_trip secret 1700000000 1700000000 1700086400 "user" "alice" 3600
           [lang] [unsigned] σ0).
  - discriminate.
  - vm_compute. reflexivity.
  - lia.
  - repeat constructor. discriminate.
Defined.

Lemma GetSecureCookie_first_of_name_witness :
  GetSecureCookie secret 1700000000 ([lang] ++ forged :: [unsigned]) "user"
  = GetSecureCookie secret 1700000000 [forged] "user".
Proof.
  apply (GetSecureCookie_first_of_name secret 1700000000 [lang] [unsigned] forged "user").
  - repeat constructor. discriminate.
  - reflexivity.
Defined.

Lemma GetSecureCookie_malformed_panics_witness :
  ∃ n : nat, (n < 2)%nat ∧ countByte "|" (Cookie_Value unsigned) = n ∧
    GetSecureCookie secret 1700000000 ([lang] ++ unsigned :: []) "user"
    = Panics (if bool_decide (n = 0%nat)
              then "runtime error: index out of range [1] with length 1"
              else "runtime error: index out of range [2] with length 2").
Proof.
  apply (GetSecureCookie_malformed_panics secret 1700000000 [lang] [] unsigned "user").
  - repeat constructor. discriminate.
  - reflexivity.
  - vm_compute. lia.
Defined.

Lemma scgi_first_status_wins_witness :
  fd (finishRequest map_to_list
        (connOps statusText map_to_list (early ++ OpWrite "hi" :: late) (newConn "GET")))
  = (statusLine statusText 200
     +:+ headerLines map_to_list (headers (connOps statusText map_to_list early (newConn "GET")))
     +:+ CRLF)
      :: (if bool_decide ("GET" = "HEAD") then [] else written (OpWrite "hi" :: late)).
Proof.
  apply (scgi_first_status_wins statusText map_to_list "GET" early late (OpWrite "hi") 200).
  - repeat constructor.
  - reflexivity.
Defined.

Lemma scgi_no_write_no_status_line_witness :
  fd (finishRequest map_to_list (connOps statusText map_to_list early (newConn "GET")))
  = [headerLines map_to_list (headers (connOps statusText map_to_list early (newConn "GET")))
     +:+ CRLF].
Proof.
  apply (scgi_no_write_no_status_line statusText map_to_list "GET" early).
  repeat constructor.
Defined.

Lemma scgiHeaders_pairs_witness :
  scgiHeaders (foldr (λ kv rest, kv.1 +:+ String "000" (kv.2 +:+ String "000" rest))
                     "" [("CONTENT_LENGTH", "0"); ("SCGI", "1"); ("CONTENT_LENGTH", "2")])
  = foldl (λ m kv, <[kv.1 := kv.2]> m) ∅
      [("CONTENT_LENGTH", "0"); ("SCGI", "1"); ("CONTENT_LENGTH", "2")].
Proof.
  apply (scgiHeaders_pairs [("CONTENT_LENGTH", "0"); ("SCGI", "1"); ("CONTENT_LENGTH", "2")] "").
  - repeat constructor.
  - reflexivity.
Defined.

Lemma initServer_default_lets_panic_through_witness :
  ∃ srv σ', deref (initServer bare) = Some srv ∧
            RecoverPanic (Config srv) = false ∧
            routeHandler srv (request "GET" "/boom") σ0 = Panicked "boom" σ' ∧
            calls (w σ') = [].
Proof.
  destruct (initServer_default_lets_panic_through bare (request "GET" "/boom") boom [] []
              "boom" σ0
              (header_set "Content-Type" "text/html; charset=utf-8"
                 (header_set "Date" (webTime now)
                    (header_set "Server" "web.go"
                       (printed [LogRequest "GET" "/boom" None] σ0)))))
    as [Hderef Hrun].
  - reflexivity.
  - vm_compute. reflexivity.
  - vm_compute. reflexivity.
  - reflexivity.
  - reflexivity.
  - eexists _, _. split; [exact Hderef|]. split; [reflexivity|]. split; [exact Hrun|].
    reflexivity.
Defined.

End Concrete2.
